(** * Enrollment and matching engine of [services/flask_backend.py]

    A shallow embedding of the gallery store ([students_data]) and of the
    handlers that read and write it: [find_best_match], [register_student],
    [recognize_faces] and [get_students].

    Modelling choices.
    - [students_data] is a Python [dict]: keys are unique and iteration
      follows key insertion order; assigning to an existing key keeps its
      position.  It is modelled as an association list with exactly this
      update ([Dict.set]).
    - Distances, thresholds and similarities are Python floats; they are
      modelled as exact rationals [Q], compared with [<].
    - The [face_recognition], [base64] and [PIL] calls belong to external
      libraries.  They are parameters of the development; a call that
      raises is modelled by [Raise].  [face_distance] is taken total: all
      embeddings share one dimension.
    - The handlers read and write the module-level [students_data]; they
      are written in a state monad over that store. *)

From Stdlib Require Import List Ascii String Bool Arith Lia QArith Qminmax Qabs Lqa.
Import ListNotations.
Local Open Scope Q_scope.

(** ** Python values *)

(** A face encoding ([numpy] array, stored through [tolist()]). *)
Definition Embedding := list Q.

(** Result of a call that may raise. *)
Inductive result (A : Type) : Type :=
| Ok (a : A)
| Raise (msg : string).
Arguments Ok {A} a.
Arguments Raise {A} msg.

(** [x < y] on floats. *)
Definition Qltb (x y : Q) : bool := negb (Qle_bool y x).

(** ** Insertion-ordered dictionary *)

Module Dict.

Definition t (V : Type) := list (string * V).

Definition empty {V : Type} : t V := [].

(** [not d] *)
Definition is_empty {V : Type} (d : t V) : bool :=
  match d with [] => true | _ :: _ => false end.

(** [d.get(k)] *)
Fixpoint get {V : Type} (k : string) (d : t V) : option V :=
  match d with
  | [] => None
  | (k', v) :: d' => if String.eqb k k' then Some v else get k d'
  end.

(** [d[k] = v]: overwrite in place when [k] is present, append otherwise. *)
Fixpoint set {V : Type} (k : string) (v : V) (d : t V) : t V :=
  match d with
  | [] => [(k, v)]
  | (k', v') :: d' =>
      if String.eqb k k' then (k, v) :: d' else (k', v') :: set k v d'
  end.

(** [d.items()], [d.keys()], [d.values()] in iteration order. *)
Definition items {V : Type} (d : t V) : list (string * V) := d.
Definition keys {V : Type} (d : t V) : list string := map fst d.
Definition values {V : Type} (d : t V) : list V := map snd d.

(** Keys of a dictionary are pairwise distinct. *)
Definition wf {V : Type} (d : t V) : Prop := NoDup (keys d).

End Dict.

(** ** Stored data *)

(** The value stored under a student id (lines 97-101). *)
Record student : Type := mkStudent {
  id : string;
  name : string;
  descriptors : list Embedding
}.

(** The dictionary built at lines 47-51. *)
Record match_result : Type := mkMatch {
  studentId : string;
  studentName : string;
  similarity : Q
}.

(** The module-level [students_data]. *)
Definition Store := Dict.t student.

(** JSON body of [/api/register-student]; [None] is an absent key. *)
Record register_request : Type := mkRegister {
  req_id : option string;
  req_name : option string;
  req_images : list string
}.

(** [jsonify(...)] with its status code. *)
Inductive response (A : Type) : Type :=
| Success (payload : A)
| Failure (status : nat) (message : string).
Arguments Success {A} payload.
Arguments Failure {A} status message.

(** [not s] for an optional string field. *)
Definition falsy (s : option string) : bool :=
  match s with
  | None => true
  | Some s' => String.eqb s' EmptyString
  end.

(** ** State monad over [students_data] *)

Definition State (A : Type) : Type := Store -> A * Store.

Definition ret {A : Type} (a : A) : State A := fun s => (a, s).

Definition bind {A B : Type} (m : State A) (f : A -> State B) : State B :=
  fun s => let (a, s') := m s in f a s'.

(** Read the global. *)
Definition get : State Store := fun s => (s, s).

(** Rebind or mutate the global. *)
Definition modify (f : Store -> Store) : State unit := fun s => (tt, f s).

Notation "x <- m ;; k" := (bind m (fun x => k))
  (at level 61, m at next level, right associativity).
Notation "m ;;; k" := (bind m (fun _ => k))
  (at level 61, right associativity).

(** ** The handlers *)

Section Backend.

(** External capabilities. *)
Variable Image : Type.
Variable Box : Type.
Variable base64_to_image : string -> result Image.
Variable face_locations : Image -> result (list Box).
Variable face_encodings : Image -> list Box -> result (list Embedding).
(** [face_recognition.face_distance([stored], probe)[0]] *)
Variable face_distance : Embedding -> Embedding -> Q.

(** Loop state of [find_best_match]: [(best_match, best_distance)]. *)
Definition scan_state : Type := (option match_result * Q)%type.

(** Lines 43-51: one iteration of the inner loop. *)
Definition visit (face_encoding : Embedding) (threshold : Q)
    (student_id : string) (st : student)
    (acc : scan_state) (descriptor : Embedding) : scan_state :=
  let distance := face_distance descriptor face_encoding in
  if Qltb distance (snd acc) && Qltb distance threshold then
    (Some (mkMatch student_id (name st) (1 - distance)), distance)
  else acc.

(** Lines 39-51: the inner loop over one student's descriptors. *)
Definition scan_student (face_encoding : Embedding) (threshold : Q)
    (acc : scan_state) (entry : string * student) : scan_state :=
  fold_left (visit face_encoding threshold (fst entry) (snd entry))
            (descriptors (snd entry)) acc.

(** Lines 35-51: both loops, from the initial state. *)
Definition scan (students_data : Store) (face_encoding : Embedding)
    (threshold : Q) : scan_state :=
  fold_left (scan_student face_encoding threshold)
            (Dict.items students_data) (None, 1).

(** Lines 31-53. *)
Definition find_best_match (face_encoding : Embedding) (threshold : Q)
    : State (option match_result) :=
  students_data <- get ;;
  if Dict.is_empty students_data then ret None
  else ret (fst (scan students_data face_encoding threshold)).

(** The default [threshold=0.6]. *)
Definition default_threshold : Q := 6 # 10.

(** Lines 74-91: the body of the loop over images; [None] when the image
    is skipped, also when a call raised. *)
Definition extract_descriptor (img_data : string) : option Embedding :=
  match base64_to_image img_data with
  | Raise _ => None
  | Ok image =>
      match face_locations image with
      | Raise _ => None
      | Ok locations =>
          if negb (Nat.eqb (List.length locations) 1%nat) then None
          else
            match face_encodings image locations with
            | Raise _ => None
            | Ok [] => None
            | Ok (e :: _) => Some e
            end
      end
  end.

(** Lines 71-91. *)
Definition extract_descriptors (images : list string) : list Embedding :=
  fold_left
    (fun acc img_data =>
       match extract_descriptor img_data with
       | Some e => acc ++ [e]
       | None => acc
       end)
    images [].

(** Lines 62-103.  The last branch is never taken: both fields were
    tested by the guard. *)
Definition register_student (data : register_request)
    : State (response unit) :=
  if falsy (req_id data) || falsy (req_name data)
     || match req_images data with [] => true | _ :: _ => false end
  then ret (Failure 400%nat "Missing required data"%string)
  else
    match req_id data, req_name data with
    | Some student_id, Some nm =>
        let ds := extract_descriptors (req_images data) in
        match ds with
        | [] =>
            ret (Failure 400%nat
                   "No valid face descriptors could be extracted"%string)
        | _ :: _ =>
            modify (Dict.set student_id (mkStudent student_id nm ds)) ;;;
            ret (Success tt)
        end
    | _, _ => ret (Failure 400%nat "Missing required data"%string)
    end.

(** Lines 126-130: the loop over the probe encodings. *)
Definition match_all (encodings : list Embedding)
    : State (list match_result) :=
  fold_left
    (fun loop face_encoding =>
       recognized_faces <- loop ;;
       m <- find_best_match face_encoding default_threshold ;;
       match m with
       | Some r => ret (recognized_faces ++ [r])
       | None => ret recognized_faces
       end)
    encodings (ret []).

(** Lines 106-135. *)
Definition recognize_faces (image_data : option string)
    : State (response (list match_result)) :=
  if falsy image_data then ret (Failure 400%nat "No image provided"%string)
  else
    match image_data with
    | None => ret (Failure 400%nat "No image provided"%string)
    | Some s =>
        match base64_to_image s with
        | Raise e => ret (Failure 500%nat e)
        | Ok image =>
            match face_locations image with
            | Raise e => ret (Failure 500%nat e)
            | Ok [] => ret (Success [])
            | Ok (l :: ls) =>
                match face_encodings image (l :: ls) with
                | Raise e => ret (Failure 500%nat e)
                | Ok encs =>
                    recognized_faces <- match_all encs ;;
                    ret (Success recognized_faces)
                end
            end
        end
    end.

(** Lines 160-162. *)
Definition get_students : State (list (string * string)) :=
  students_data <- get ;;
  ret (map (fun data => (id data, name data)) (Dict.values students_data)).

(** *** Vocabulary of the statements *)

(** A stored descriptor with the entry it belongs to. *)
Definition candidate : Type := (string * student * Embedding)%type.

(** The descriptors in the order the two loops of [find_best_match]
    visit them. *)
Definition candidates (students_data : Store) : list candidate :=
  flat_map
    (fun entry =>
       map (fun descriptor => (fst entry, snd entry, descriptor))
           (descriptors (snd entry)))
    (Dict.items students_data).

Definition distance_to (face_encoding : Embedding) (c : candidate) : Q :=
  face_distance (snd c) face_encoding.

(** The result built at lines 47-51 for a candidate. *)
Definition match_of (face_encoding : Embedding) (c : candidate)
    : match_result :=
  mkMatch (fst (fst c)) (name (snd (fst c)))
          (1 - distance_to face_encoding c).

(** One loop iteration, on a candidate. *)
Definition visit_candidate (face_encoding : Embedding) (threshold : Q)
    (acc : scan_state) (c : candidate) : scan_state :=
  visit face_encoding threshold (fst (fst c)) (snd (fst c)) acc (snd c).

(** Every stored student has at least one descriptor. *)
Definition store_inv (students_data : Store) : Prop :=
  Forall (fun st => descriptors st <> []) (Dict.values students_data).

(** The operations on the store. *)
Inductive operation : Type :=
| Enroll (data : register_request)
| FindBestMatch (face_encoding : Embedding) (threshold : Q)
| FindAllMatches (image_data : option string)
| AllSubjects.

(** Run one operation, dropping its answer. *)
Definition exec (op : operation) : State unit :=
  match op with
  | Enroll data => register_student data ;;; ret tt
  | FindBestMatch face_encoding threshold =>
      find_best_match face_encoding threshold ;;; ret tt
  | FindAllMatches image_data => recognize_faces image_data ;;; ret tt
  | AllSubjects => get_students ;;; ret tt
  end.

(** The store after a sequence of operations. *)
Definition run (ops : list operation) (students_data : Store) : Store :=
  fold_left (fun s op => snd (exec op s)) ops students_data.

End Backend.

(** ** Decoding of the image data (lines 22-29) *)

Module Decode.

Local Open Scope string_scope.

(** [sub in s] *)
Fixpoint contains (sub s : string) : bool :=
  if String.prefix sub s then true
  else
    match s with
    | EmptyString => false
    | String _ s' => contains sub s'
    end.

(** [s.split(sep)] for a separator of one character. *)
Fixpoint split (sep : Ascii.ascii) (s : string) : list string :=
  match s with
  | EmptyString => [EmptyString]
  | String a s' =>
      if Ascii.eqb a sep then EmptyString :: split sep s'
      else
        match split sep s' with
        | piece :: pieces => String a piece :: pieces
        | [] => [String a EmptyString]
        end
  end.

(** Lines 24-25.  [Raise] is the [IndexError] of [split(',')[1]]. *)
Definition strip_data_url (base64_string : string) : result string :=
  if contains "data:image" base64_string then
    match split ","%char base64_string with
    | _ :: payload :: _ => Ok payload
    | _ => Raise "list index out of range"
    end
  else Ok base64_string.

Section Opening.

Variable Image : Type.
(** [np.array(Image.open(io.BytesIO(base64.b64decode(s))))] *)
Variable open_image : string -> result Image.

(** Lines 22-29. *)
Definition base64_to_image (base64_string : string) : result Image :=
  match strip_data_url base64_string with
  | Raise e => Raise e
  | Ok payload => open_image payload
  end.

End Opening.

End Decode.

(** ** The attendance log (lines 19, 137-166) *)

Module Attendance.

Local Open Scope string_scope.

Section Records.

(** An entry of the [students] list of a request: any JSON value. *)
Variable Json : Type.

(** The dictionary built at lines 148-153. *)
Record attendance_record : Type := mkRecord {
  record_id : string;
  course : string;
  date : string;
  students : list Json
}.

(** The module-level [attendance_records]. *)
Definition Log : Type := list attendance_record.

(** What the clock and [uuid4] return during one request:
    [strftime('%Y%m%d_%H%M%S')], [strftime("%Y-%m-%d")] and
    [uuid.uuid4().hex]. *)
Record environment : Type := mkEnv {
  stamp : string;
  today : string;
  uuid_hex : string
}.

(** Line 146. *)
Definition attendance_id (env : environment) (course_name : string) : string :=
  course_name ++ "_" ++ stamp env ++ "_" ++ substring 0 8 (uuid_hex env).

(** Lines 138-157, as a transition of the log. *)
Definition save_attendance (env : environment)
    (course_name : option string) (present : list Json)
    (attendance_records : Log) : response unit * Log :=
  if falsy course_name
  then (Failure 400%nat "Course name is required", attendance_records)
  else
    match course_name with
    | Some c =>
        (Success tt,
         (attendance_records
          ++ [mkRecord (attendance_id env c) c (today env) present])%list)
    | None => (Failure 400%nat "Course name is required", attendance_records)
    end.

(** Lines 165-166. *)
Definition get_attendance_records (attendance_records : Log)
    : list attendance_record * Log :=
  (attendance_records, attendance_records).

(** A [save-attendance] request with what the clock and [uuid4] gave. *)
Definition save_request : Type :=
  (environment * option string * list Json)%type.

(** The record a request adds, if any. *)
Definition record_of (r : save_request) : list attendance_record :=
  match r with
  | (env, Some c, present) =>
      if String.eqb c EmptyString then []
      else [mkRecord (attendance_id env c) c (today env) present]
  | (_, None, _) => []
  end.

(** The log after a sequence of [save-attendance] requests. *)
Definition save_all (requests : list save_request) (attendance_records : Log)
    : Log :=
  fold_left
    (fun log r =>
       snd (save_attendance (fst (fst r)) (snd (fst r)) (snd r) log))
    requests attendance_records.

End Records.

End Attendance.

(** ** A concrete instance, used to run the handlers *)

Module Sample.

Local Open Scope string_scope.

(** Sum of coordinate differences; on one-dimensional embeddings this is
    the Euclidean distance. *)
Fixpoint abs_distance (a b : Embedding) : Q :=
  match a, b with
  | x :: a', y :: b' => Qabs (x - y) + abs_distance a' b'
  | _, _ => 0
  end.

(** An image is given by the encodings of the faces it shows. *)
Definition Image := list Embedding.
Definition Box := nat.

(** Image data [fN] shows one face with encoding [[N]]; [ff] shows two
    faces; [f0] shows none; anything else does not decode. *)
Definition base64_to_image (s : string) : result Image :=
  if String.eqb s "fA" then Ok [[0]]
  else if String.eqb s "fB" then Ok [[5]]
  else if String.eqb s "fC" then Ok [[1 # 2]]
  else if String.eqb s "ff" then Ok [[0]; [5]]
  else if String.eqb s "f0" then Ok []
  else Raise "cannot identify image file".

Definition face_locations (im : Image) : result (list Box) :=
  Ok (seq 0 (List.length im)).

Definition face_encodings (im : Image) (locs : list Box)
    : result (list Embedding) :=
  Ok (map (fun i => nth i im []) locs).

Definition enroll (sid nm : string) (images : list string)
    : State (response unit) :=
  register_student Image Box base64_to_image face_locations face_encodings
    (mkRegister (Some sid) (Some nm) images).

Definition lookup (probe : Embedding) (threshold : Q)
    : State (option match_result) :=
  find_best_match abs_distance probe threshold.

(** alice at [[0]], bob at [[5]]. *)
Definition two_students : Store :=
  snd ((enroll "s1" "Alice" ["fA"] ;;; enroll "s2" "Bob" ["fB"]) Dict.empty).

(** alice at [[0]], bob at [[1/2]]: probe [[1/4]] is as far from both. *)
Definition tie_students : Store :=
  snd ((enroll "s1" "Alice" ["fA"] ;;; enroll "s2" "Bob" ["fC"]) Dict.empty).

Definition alice : candidate := ("s1", mkStudent "s1" "Alice" [[0]], [0]).
Definition bob : candidate := ("s2", mkStudent "s2" "Bob" [[5]], [5]).
Definition near_bob : candidate :=
  ("s2", mkStudent "s2" "Bob" [[1 # 2]], [1 # 2]).

(** Re-enrolment of [s1] with another face. *)
Definition reenroll_s1 : register_request :=
  mkRegister (Some "s1") (Some "Alice") ["fB"].

(** Enrolment of a new student. *)
Definition enroll_s3 : register_request :=
  mkRegister (Some "s3") (Some "Carol") ["fC"; "f0"].

(** No image of this request yields a descriptor: no face, two faces,
    undecodable data. *)
Definition no_face : register_request :=
  mkRegister (Some "s3") (Some "Carol") ["f0"; "ff"; "zz"].

Definition exec_op : operation -> State unit :=
  exec Image Box base64_to_image face_locations face_encodings
           abs_distance.

Definition run_ops : list operation -> Store -> Store :=
  run Image Box base64_to_image face_locations face_encodings
          abs_distance.

Definition session : list operation :=
  [Enroll no_face; Enroll enroll_s3; FindBestMatch [1 # 2] (6 # 10);
   Enroll reenroll_s1; FindAllMatches (Some "ff"); AllSubjects].

End Sample.

(** ** More sample data: data URLs and attendance requests *)

Module Fixtures.

Import Sample.

Local Open Scope string_scope.

(** The sample decoder behind the data URL stripping of
    [base64_to_image]. *)
Definition decode : string -> result Image :=
  Decode.base64_to_image Image base64_to_image.

Definition enroll_url : register_request :=
  mkRegister (Some "s4") (Some "Dan")
             ["data:image/png;base64"; "data:image/png;base64,fC"].

(** A request made on 4 November 2026 at 09:30:00. *)
Definition morning : Attendance.environment :=
  Attendance.mkEnv "20261104_093000" "2026-11-04"
                   "0123456789abcdef0123456789abcdef".

Definition morning_too : Attendance.environment :=
  Attendance.mkEnv "20261104_093000" "2026-11-04"
                   "0123456799999999ffffffffffffffff".

End Fixtures.

(** ** Comparison and dictionary facts *)

Lemma Qltb_lt (x y : Q) : Qltb x y = true <-> x < y.
Proof.
  unfold Qltb. rewrite negb_true_iff, <- not_true_iff_false, Qle_bool_iff.
  split; [apply Qnot_le_lt | apply Qlt_not_le].
Qed.

Lemma Qltb_ge (x y : Q) : Qltb x y = false <-> y <= x.
Proof.
  unfold Qltb. rewrite negb_false_iff. apply Qle_bool_iff.
Qed.

Module DictFacts.

Import Dict.

Section Facts.

Context {V : Type}.
Implicit Types (d : Dict.t V) (k : string) (v : V).

Lemma get_set_same k v d : get k (set k v d) = Some v.
Proof.
  induction d as [|[k' v'] d IH]; simpl.
  - now rewrite String.eqb_refl.
  - destruct (String.eqb k k') eqn:E; simpl.
    + now rewrite String.eqb_refl.
    + now rewrite E.
Qed.

Lemma get_set_other k k' v d : k' <> k -> get k' (set k v d) = get k' d.
Proof.
  intros Hne. induction d as [|[k0 v0] d IH]; simpl.
  - apply String.eqb_neq in Hne. now rewrite Hne.
  - destruct (String.eqb k k0) eqn:E; simpl.
    + apply String.eqb_eq in E. subst k0.
      apply String.eqb_neq in Hne. now rewrite Hne.
    + now rewrite IH.
Qed.

Lemma keys_set k v d :
  keys (set k v d)
  = if existsb (String.eqb k) (keys d) then keys d else keys d ++ [k].
Proof.
  unfold keys. induction d as [|[k0 v0] d IH]; simpl; [reflexivity|].
  destruct (String.eqb k k0) eqn:E; simpl.
  - apply String.eqb_eq in E. now subst.
  - rewrite IH. now destruct (existsb _ _).
Qed.

Lemma wf_set k v d : wf d -> wf (set k v d).
Proof.
  unfold wf. rewrite keys_set. intros Hd.
  destruct (existsb (String.eqb k) (keys d)) eqn:E; [assumption|].
  apply NoDup_app; [assumption | repeat constructor; intros [] |].
  intros x Hx [Hk|[]]. subst x.
  assert (existsb (String.eqb k) (keys d) = true); [|congruence].
  apply existsb_exists. exists k. split; [assumption | apply String.eqb_refl].
Qed.

(** Under distinct keys, the entries of an updated dictionary are the
    new binding and the old bindings of the other keys. *)
Lemma In_set k v d k' v' :
  wf d ->
  In (k', v') (set k v d) <->
  (k' = k /\ v' = v) \/ (k' <> k /\ In (k', v') d).
Proof.
  unfold wf, keys. induction d as [|[k0 v0] d IH]; simpl; intros Hd.
  - split.
    + intros [H|[]]. injection H as <- <-. now left.
    + intros [[-> ->]|[_ []]]. now left.
  - inversion Hd as [|? ? Hk0 Hd']; subst.
    destruct (String.eqb k k0) eqn:E.
    + apply String.eqb_eq in E. subst k0. simpl. split.
      * intros [H|H]; [injection H as <- <-; now left|].
        right. split; [|now right].
        intros ->. apply Hk0. now apply (in_map fst) in H.
      * intros [[-> ->]|[Hne [H|H]]]; [now left | | now right].
        injection H as <- <-. now elim Hne.
    + apply String.eqb_neq in E. simpl. rewrite (IH Hd'). split.
      * intros [H|[H|[Hne H]]]; [| now left | right; split; auto].
        injection H as <- <-. right. split; [congruence | now left].
      * intros [H|[Hne [H|H]]]; [right; now left | now left | right; right; auto].
Qed.

End Facts.

End DictFacts.

(** ** The scan of [find_best_match] *)

Section ScanFacts.

Variable face_distance : Embedding -> Embedding -> Q.
Variable probe : Embedding.
Variable threshold : Q.

Let dist := distance_to face_distance probe.
Let step := visit_candidate face_distance probe threshold.
Let outcome := match_of face_distance probe.

Lemma step_eq acc c :
  step acc c
  = if Qltb (dist c) (snd acc) && Qltb (dist c) threshold
    then (Some (outcome c), dist c) else acc.
Proof. reflexivity. Qed.

Lemma step_taken acc c :
  dist c < snd acc -> dist c < threshold ->
  step acc c = (Some (outcome c), dist c).
Proof.
  intros H1 H2. rewrite step_eq.
  apply Qltb_lt in H1, H2. now rewrite H1, H2.
Qed.

Lemma step_skipped acc c :
  ~ (dist c < snd acc /\ dist c < threshold) -> step acc c = acc.
Proof.
  intros H. rewrite step_eq.
  destruct (Qltb (dist c) (snd acc)) eqn:E1; [|reflexivity].
  destruct (Qltb (dist c) threshold) eqn:E2; [|reflexivity].
  apply Qltb_lt in E1, E2. tauto.
Qed.

Lemma step_cases acc c :
  (dist c < snd acc /\ dist c < threshold
   /\ step acc c = (Some (outcome c), dist c))
  \/ (~ (dist c < snd acc /\ dist c < threshold) /\ step acc c = acc).
Proof.
  destruct (Qlt_le_dec (dist c) (snd acc)) as [H1|H1];
    [destruct (Qlt_le_dec (dist c) threshold) as [H2|H2]|].
  - left. auto using step_taken.
  - right. split; [|apply step_skipped]; intros [_ H]; now apply Qle_not_lt in H2.
  - right. split; [|apply step_skipped]; intros [H _]; now apply Qle_not_lt in H1.
Qed.

(** The two nested loops visit the candidates in order. *)
Lemma scan_student_candidates acc entry :
  scan_student face_distance probe threshold acc entry
  = fold_left step
      (map (fun d => (fst entry, snd entry, d)) (descriptors (snd entry)))
      acc.
Proof.
  unfold scan_student. generalize (descriptors (snd entry)) as ds.
  intros ds. revert acc.
  induction ds as [|d ds IH]; intros acc; simpl; [reflexivity|].
  now rewrite IH.
Qed.

Lemma scan_from_candidates (sd : Store) acc :
  fold_left (scan_student face_distance probe threshold) (Dict.items sd) acc
  = fold_left step (candidates sd) acc.
Proof.
  unfold candidates, Dict.items. revert acc.
  induction sd as [|entry sd IH]; intros acc; simpl; [reflexivity|].
  now rewrite fold_left_app, IH, scan_student_candidates.
Qed.

Lemma scan_candidates (sd : Store) :
  scan face_distance sd probe threshold
  = fold_left step (candidates sd) (None, 1).
Proof. apply scan_from_candidates. Qed.

(** What the loop leaves behind: either nothing qualified, or the state
    is that of the first candidate of least distance. *)
Lemma fold_step_spec l : forall acc,
  (fold_left step l acc = acc
   /\ Forall (fun c => ~ (dist c < snd acc /\ dist c < threshold)) l)
  \/ (exists l1 c l2,
        l = l1 ++ c :: l2
        /\ fold_left step l acc = (Some (outcome c), dist c)
        /\ dist c < snd acc /\ dist c < threshold
        /\ Forall (fun c' => dist c < dist c') l1
        /\ Forall (fun c' => dist c <= dist c') l2).
Proof.
  induction l as [|a l IH]; intros acc; simpl.
  - left. split; [reflexivity | constructor].
  - destruct (IH (step acc a)) as [[Heq Hall]|(l1 & c & l2 & -> & Heq & Hb & Ht & H1 & H2)].
    + destruct (step_cases acc a) as [(Ha1 & Ha2 & Hs)|[Hn Hs]].
      * right. exists [], a, l. rewrite Heq, Hs. simpl.
        repeat split; auto.
        rewrite Hs in Hall. simpl in Hall.
        eapply Forall_impl; [|exact Hall]. intros c Hc. simpl in Hc.
        destruct (Qlt_le_dec (dist c) (dist a)) as [Hlt|Hle]; [|assumption].
        exfalso. apply Hc. split; [assumption|].
        apply Qlt_trans with (dist a); assumption.
      * left. rewrite Heq, Hs. split; [reflexivity|].
        constructor; [assumption|]. now rewrite Hs in Hall.
    + right. exists (a :: l1), c, l2. rewrite Heq.
      destruct (step_cases acc a) as [(Ha1 & Ha2 & Hs)|[Hn Hs]];
        rewrite Hs in Hb; simpl in Hb.
      * split; [reflexivity|]. split; [reflexivity|].
        split; [apply Qlt_trans with (dist a); assumption|].
        split; [assumption|]. split; [|assumption].
        constructor; assumption.
      * split; [reflexivity|]. split; [reflexivity|].
        split; [assumption|]. split; [assumption|]. split; [|assumption].
        constructor; [|assumption].
        destruct (Qlt_le_dec (dist c) (dist a)) as [Hlt|Hle]; [assumption|].
        exfalso. apply Hn.
        split; apply Qle_lt_trans with (dist c); assumption.
Qed.

(** The accumulator never exceeds its seed. *)
Lemma fold_step_bound l : forall acc b,
  snd acc <= b -> snd (fold_left step l acc) <= b.
Proof.
  induction l as [|a l IH]; intros acc b Hb; simpl; [assumption|].
  apply IH. destruct (step_cases acc a) as [(Ha1 & _ & ->)|[_ ->]]; simpl.
  - apply Qlt_le_weak. apply Qlt_le_trans with (snd acc); assumption.
  - assumption.
Qed.

End ScanFacts.

(** More facts on the loop, at a fixed probe. *)

Section ScanOrder.

Variable face_distance : Embedding -> Embedding -> Q.
Variable probe : Embedding.

Let dist := distance_to face_distance probe.
Let outcome := match_of face_distance probe.

(** Candidates that are all farther than [b] leave the accumulator
    above [b]. *)
Lemma fold_step_above threshold b l : forall acc,
  b < snd acc -> Forall (fun c' => b < dist c') l ->
  b < snd (fold_left (visit_candidate face_distance probe threshold) l acc).
Proof.
  induction l as [|a l IH]; intros acc Hb Hl; simpl; [assumption|].
  inversion Hl as [|? ? Ha Hl']; subst. apply IH; [|assumption].
  destruct (step_cases face_distance probe threshold acc a)
    as [(_ & _ & ->)|[_ ->]]; assumption.
Qed.

(** Candidates that are not closer than the current best change
    nothing. *)
Lemma fold_step_keep threshold l : forall acc,
  Forall (fun c' => snd acc <= dist c') l ->
  fold_left (visit_candidate face_distance probe threshold) l acc = acc.
Proof.
  induction l as [|a l IH]; intros acc Hl; simpl; [reflexivity|].
  inversion Hl as [|? ? Ha Hl']; subst.
  rewrite step_skipped; [now apply IH|].
  intros [H _]. now apply Qle_not_lt in Ha.
Qed.

(** The seed [1.0] makes [threshold] and [min(threshold, 1.0)] the same
    cutoff. *)
Lemma fold_step_min threshold l : forall acc,
  snd acc <= 1 ->
  fold_left (visit_candidate face_distance probe threshold) l acc
  = fold_left (visit_candidate face_distance probe (Qmin threshold 1)) l acc.
Proof.
  induction l as [|a l IH]; intros acc Hacc; simpl; [reflexivity|].
  assert (Hstep : visit_candidate face_distance probe threshold acc a
                  = visit_candidate face_distance probe (Qmin threshold 1) acc a).
  { rewrite !step_eq.
    destruct (Qltb (distance_to face_distance probe a) (snd acc)) eqn:E1;
      [|reflexivity].
    simpl. apply Qltb_lt in E1.
    assert (H1 : distance_to face_distance probe a < 1)
      by (apply Qlt_le_trans with (snd acc); assumption).
    destruct (Qltb (distance_to face_distance probe a) threshold) eqn:E2.
    - apply Qltb_lt in E2.
      assert (E3 : Qltb (distance_to face_distance probe a) (Qmin threshold 1) = true)
        by (apply Qltb_lt, Q.min_glb_lt; assumption).
      now rewrite E3.
    - apply Qltb_ge in E2.
      assert (E3 : Qltb (distance_to face_distance probe a) (Qmin threshold 1) = false).
      { apply Qltb_ge. apply Qle_trans with threshold; [apply Q.le_min_l | assumption]. }
      now rewrite E3. }
  rewrite <- Hstep. apply IH.
  destruct (step_cases face_distance probe threshold acc a)
    as [(Ha & _ & ->)|[_ ->]]; simpl; [|assumption].
  apply Qlt_le_weak, Qlt_le_trans with (snd acc); assumption.
Qed.

End ScanOrder.

(** ** Running the handlers *)

Section RunFacts.

Variable Image : Type.
Variable Box : Type.
Variable base64_to_image : string -> result Image.
Variable face_locations : Image -> result (list Box).
Variable face_encodings : Image -> list Box -> result (list Embedding).
Variable face_distance : Embedding -> Embedding -> Q.

Lemma find_best_match_run probe threshold (sd : Store) :
  find_best_match face_distance probe threshold sd
  = (if Dict.is_empty sd then None
     else fst (scan face_distance sd probe threshold), sd).
Proof.
  unfold find_best_match, bind, get, ret.
  now destruct (Dict.is_empty sd).
Qed.

(** The early return agrees with the loops: an empty store has no
    candidate. *)
Lemma find_best_match_scan probe threshold (sd : Store) :
  fst (find_best_match face_distance probe threshold sd)
  = fst (fold_left (visit_candidate face_distance probe threshold)
                   (candidates sd) (None, 1)).
Proof.
  rewrite find_best_match_run. simpl.
  destruct sd as [|entry sd]; [reflexivity|].
  simpl Dict.is_empty. cbv iota. now rewrite scan_candidates.
Qed.

(** A returned match is that of a candidate closer than both the seed
    and the threshold, met before any candidate as close. *)
Lemma find_best_match_some probe threshold (sd : Store) m :
  fst (find_best_match face_distance probe threshold sd) = Some m ->
  exists l1 c l2,
    candidates sd = l1 ++ c :: l2
    /\ m = match_of face_distance probe c
    /\ snd (scan face_distance sd probe threshold)
       = distance_to face_distance probe c
    /\ distance_to face_distance probe c < 1
    /\ distance_to face_distance probe c < threshold
    /\ Forall (fun c' => distance_to face_distance probe c
                         < distance_to face_distance probe c') l1
    /\ Forall (fun c' => distance_to face_distance probe c
                         <= distance_to face_distance probe c') l2.
Proof.
  rewrite find_best_match_scan, scan_candidates.
  destruct (fold_step_spec face_distance probe threshold (candidates sd) (None, 1))
    as [[-> _]|(l1 & c & l2 & Hl & -> & Hb & Ht & H1 & H2)]; simpl.
  - discriminate.
  - intros [= <-]. exists l1, c, l2. repeat (split; [assumption || reflexivity|]).
    assumption.
Qed.

End RunFacts.

(** ** Properties of the matcher *)

Section Matcher.

Variable face_distance : Embedding -> Embedding -> Q.

Let dist := distance_to face_distance.

(** C1.  The seed [1.0] of [best_distance] caps the cutoff: a returned
    match is that of a stored descriptor whose distance is below [1]
    and below [threshold], and the answer is the one obtained with
    [min(threshold, 1)] as threshold. *)
Theorem find_best_match_capped_at_one :
  forall (sd : Store) (probe : Embedding) (threshold : Q),
    fst (find_best_match face_distance probe threshold sd)
    = fst (find_best_match face_distance probe (Qmin threshold 1) sd)
    /\ (forall m,
          fst (find_best_match face_distance probe threshold sd) = Some m ->
          exists c,
            In c (candidates sd)
            /\ m = match_of face_distance probe c
            /\ dist probe c < 1
            /\ dist probe c < threshold).
Proof.
  intros sd probe threshold. split.
  - rewrite !find_best_match_scan.
    now rewrite (fold_step_min face_distance probe threshold) by apply Qle_refl.
  - intros m Hm.
    destruct (find_best_match_some face_distance probe threshold sd m Hm)
      as (l1 & c & l2 & Hl & -> & _ & H1 & Ht & _).
    exists c. rewrite Hl. repeat split; try assumption.
    apply in_or_app. right. now left.
Qed.

(** C2.  When the least distance from the probe to a stored descriptor
    is exactly [threshold], the answer is [None]. *)
Theorem find_best_match_threshold_boundary :
  forall (sd : Store) (probe : Embedding) (threshold : Q),
    (exists c, In c (candidates sd) /\ dist probe c == threshold) ->
    (forall c, In c (candidates sd) -> threshold <= dist probe c) ->
    fst (find_best_match face_distance probe threshold sd) = None.
Proof.
  intros sd probe threshold _ Hmin.
  destruct (fst (find_best_match face_distance probe threshold sd)) as [m|] eqn:E;
    [|reflexivity].
  destruct (find_best_match_some face_distance probe threshold sd m E)
    as (l1 & c & l2 & Hl & _ & _ & _ & Ht & _).
  exfalso. apply (Qlt_not_le _ _ Ht). apply Hmin.
  rewrite Hl. apply in_or_app. right. now left.
Qed.

(** C7.  With a distance function that is never negative on the stored
    descriptors, a returned match carries [1 - distance] of the winning
    descriptor, the distance being the final [best_distance], and that
    score lies in [[0, 1]]. *)
Theorem find_best_match_similarity :
  forall (sd : Store) (probe : Embedding) (threshold : Q) (m : match_result),
    Forall (fun c => 0 <= dist probe c) (candidates sd) ->
    fst (find_best_match face_distance probe threshold sd) = Some m ->
    (exists c,
       In c (candidates sd)
       /\ studentId m = fst (fst c)
       /\ studentName m = name (snd (fst c))
       /\ dist probe c < threshold
       /\ snd (scan face_distance sd probe threshold) = dist probe c
       /\ similarity m = 1 - dist probe c)
    /\ 0 <= similarity m /\ similarity m <= 1.
Proof.
  intros sd probe threshold m Hpos Hm.
  destruct (find_best_match_some face_distance probe threshold sd m Hm)
    as (l1 & c & l2 & Hl & -> & Hs & H1 & Ht & _).
  assert (Hin : In c (candidates sd))
    by (rewrite Hl; apply in_or_app; right; now left).
  assert (H0 : 0 <= dist probe c)
    by (rewrite Forall_forall in Hpos; now apply Hpos).
  split; [exists c; repeat split; assumption|].
  unfold dist in *. simpl. split; lra.
Qed.

End Matcher.

(** ** Properties of the store and of its handlers *)

Section Gallery.

Variable Image : Type.
Variable Box : Type.
Variable base64_to_image : string -> result Image.
Variable face_locations : Image -> result (list Box).
Variable face_encodings : Image -> list Box -> result (list Embedding).
Variable face_distance : Embedding -> Embedding -> Q.

Let dist := distance_to face_distance.
Let register :=
  register_student Image Box base64_to_image face_locations face_encodings.
Let extract :=
  extract_descriptors Image Box base64_to_image face_locations face_encodings.
Let recognize :=
  recognize_faces Image Box base64_to_image face_locations face_encodings
                  face_distance.

(** The two outcomes of [register_student]. *)
Lemma register_student_cases (data : register_request) (sd : Store) :
  (exists sid nm e ds,
      req_id data = Some sid /\ req_name data = Some nm
      /\ extract (req_images data) = e :: ds
      /\ register data sd
         = (Success tt, Dict.set sid (mkStudent sid nm (e :: ds)) sd))
  \/ (exists msg, register data sd = (Failure 400%nat msg, sd)).
Proof.
  unfold register, register_student.
  destruct (falsy (req_id data) || falsy (req_name data)
            || match req_images data with [] => true | _ :: _ => false end);
    [right; eexists; reflexivity|].
  destruct (req_id data) as [sid|]; [|right; eexists; reflexivity].
  destruct (req_name data) as [nm|]; [|right; eexists; reflexivity].
  fold extract.
  destruct (extract (req_images data)) as [|e ds] eqn:E;
    [right; eexists; reflexivity|].
  left. exists sid, nm, e, ds. repeat split; reflexivity.
Qed.

Lemma register_student_success (data : register_request) (sd sd' : Store) :
  register data sd = (Success tt, sd') ->
  exists sid nm e ds,
    req_id data = Some sid /\ req_name data = Some nm
    /\ extract (req_images data) = e :: ds
    /\ sd' = Dict.set sid (mkStudent sid nm (e :: ds)) sd.
Proof.
  intros H.
  destruct (register_student_cases data sd)
    as [(sid & nm & e & ds & H1 & H2 & H3 & H4)|[msg Hf]].
  - rewrite H4 in H. injection H as <-. now exists sid, nm, e, ds.
  - rewrite Hf in H. discriminate.
Qed.

(** Candidates of a store entered under a new key come last. *)
Lemma candidates_set_fresh (k : string) (v : student) (sd : Store) :
  ~ In k (Dict.keys sd) ->
  candidates (Dict.set k v sd)
  = candidates sd ++ map (fun e => (k, v, e)) (descriptors v).
Proof.
  unfold candidates, Dict.items, Dict.keys.
  induction sd as [|[k0 v0] sd IH]; simpl; intros Hk.
  - now rewrite app_nil_r.
  - destruct (String.eqb k k0) eqn:E.
    + apply String.eqb_eq in E. elim Hk. now left.
    + simpl. rewrite IH, app_assoc; [reflexivity|]. intros H. apply Hk. now right.
Qed.

Lemma candidates_in (sd : Store) (c : candidate) :
  In c (candidates sd)
  <-> In (fst c) (Dict.items sd) /\ In (snd c) (descriptors (snd (fst c))).
Proof.
  unfold candidates. rewrite in_flat_map. split.
  - intros (entry & Hin & Hc). apply in_map_iff in Hc as (e & <- & He).
    simpl. now destruct entry.
  - intros [Hin He]. exists (fst c). split; [assumption|].
    apply in_map_iff. exists (snd c). split; [|assumption].
    destruct c as [[k v] e]. reflexivity.
Qed.

(** C3.  In the order the loops visit the stored descriptors (students
    in the store's key order, then each student's descriptors in list
    order), a qualifying descriptor that is strictly closer than every
    earlier one and at least as close as every later one is the one
    returned: on a tie the first seen wins.  A student enrolled under a
    new id is visited after all the students already stored. *)
Theorem find_best_match_first_seen_wins :
  (forall (sd : Store) (probe : Embedding) (threshold : Q)
          (l1 l2 : list candidate) (c : candidate),
      candidates sd = l1 ++ c :: l2 ->
      dist probe c < 1 ->
      dist probe c < threshold ->
      Forall (fun c' => dist probe c < dist probe c') l1 ->
      Forall (fun c' => dist probe c <= dist probe c') l2 ->
      fst (find_best_match face_distance probe threshold sd)
      = Some (match_of face_distance probe c))
  /\ (forall (data : register_request) (sd sd' : Store) (sid : string),
        register data sd = (Success tt, sd') ->
        req_id data = Some sid ->
        ~ In sid (Dict.keys sd) ->
        exists st,
          Dict.get sid sd' = Some st
          /\ candidates sd'
             = candidates sd ++ map (fun e => (sid, st, e)) (descriptors st)).
Proof.
  split.
  - intros sd probe threshold l1 l2 c Hl Hc1 Hct H1 H2.
    rewrite find_best_match_scan, Hl, fold_left_app. simpl.
    pose proof (fold_step_above face_distance probe threshold
                  (dist probe c) l1 (None, 1) Hc1 H1) as Habove.
    rewrite (step_taken face_distance probe threshold _ c Habove Hct).
    now rewrite fold_step_keep.
  - intros data sd sd' sid Hreg Hid Hfresh.
    destruct (register_student_success data sd sd' Hreg)
      as (sid' & nm & e & ds & H1 & _ & _ & ->).
    rewrite Hid in H1. injection H1 as <-.
    exists (mkStudent sid nm (e :: ds)). split.
    + apply DictFacts.get_set_same.
    + now apply candidates_set_fresh.
Qed.

Lemma store_inv_set (k : string) (v : student) (sd : Store) :
  descriptors v <> [] -> store_inv sd -> store_inv (Dict.set k v sd).
Proof.
  unfold store_inv, Dict.values. intros Hv.
  induction sd as [|[k0 v0] sd IH]; simpl; intros Hsd.
  - now constructor.
  - inversion Hsd as [|? ? H0 Hsd']; subst.
    destruct (String.eqb k k0); simpl; constructor; auto.
Qed.

Lemma filter_set_other (k : string) (v : student) (sd : Store) :
  filter (fun entry => negb (String.eqb (fst entry) k)) (Dict.set k v sd)
  = filter (fun entry => negb (String.eqb (fst entry) k)) sd.
Proof.
  induction sd as [|[k0 v0] sd IH]; simpl.
  - now rewrite String.eqb_refl.
  - destruct (String.eqb k k0) eqn:E; simpl.
    + rewrite String.eqb_refl. rewrite String.eqb_sym, E. reflexivity.
    + now rewrite IH.
Qed.

(** The loop of [recognize_faces] keeps the matches found, in order,
    and leaves the store alone. *)
Lemma match_all_from (sd : Store) (encs : list Embedding) :
  forall (loop : State (list match_result)) (found : list match_result),
    loop sd = (found, sd) ->
    fold_left
      (fun loop face_encoding =>
         recognized_faces <- loop ;;
         m <- find_best_match face_distance face_encoding default_threshold ;;
         match m with
         | Some r => ret (recognized_faces ++ [r])
         | None => ret recognized_faces
         end)
      encs loop sd
    = (found
       ++ flat_map
            (fun p =>
               match fst (find_best_match face_distance p default_threshold sd)
               with Some r => [r] | None => [] end)
            encs,
       sd).
Proof.
  induction encs as [|p encs IH]; intros loop found Hloop; simpl.
  - now rewrite app_nil_r.
  - rewrite app_assoc. apply IH.
    unfold bind at 1. rewrite Hloop.
    unfold bind. rewrite find_best_match_run. simpl.
    destruct (if Dict.is_empty sd then None
              else fst (scan face_distance sd p default_threshold));
      unfold ret; [reflexivity | now rewrite app_nil_r].
Qed.

Lemma match_all_run (sd : Store) (encs : list Embedding) :
  match_all face_distance encs sd
  = (flat_map
       (fun p =>
          match fst (find_best_match face_distance p default_threshold sd)
          with Some r => [r] | None => [] end)
       encs,
     sd).
Proof. unfold match_all. now rewrite (match_all_from sd encs (ret []) []). Qed.

Lemma recognize_faces_store (image_data : option string) (sd : Store) :
  snd (recognize image_data sd) = sd.
Proof.
  unfold recognize, recognize_faces.
  destruct (falsy image_data); [reflexivity|].
  destruct image_data as [s|]; [|reflexivity].
  destruct (base64_to_image s) as [image|]; [|reflexivity].
  destruct (face_locations image) as [[|l ls]|]; try reflexivity.
  destruct (face_encodings image (l :: ls)) as [encs|]; [|reflexivity].
  unfold bind. now rewrite match_all_run.
Qed.

(** C8.  The loop of [recognize_faces] calls [find_best_match] on each
    probe against the same store and returns the matches found, in
    probe order, skipping the probes without a match; it returns at most
    as many results as there are probes. *)
Theorem match_all_keeps_matches_in_order :
  forall (sd : Store) (encodings : list Embedding),
    match_all face_distance encodings sd
    = (flat_map
         (fun p =>
            match fst (find_best_match face_distance p default_threshold sd)
            with Some r => [r] | None => [] end)
         encodings,
       sd)
    /\ (List.length (fst (match_all face_distance encodings sd))
        <= List.length encodings)%nat.
Proof.
  intros sd encodings. split; [apply match_all_run|].
  rewrite match_all_run. simpl.
  induction encodings as [|p encs IH]; simpl; [constructor|].
  rewrite length_app.
  destruct (fst (find_best_match face_distance p default_threshold sd));
    simpl; lia.
Qed.

(** C9.  Against an empty store [find_best_match] answers [None] for
    every probe and every threshold, whatever the distance function
    is, and the loop of [recognize_faces] finds no match; neither is an
    error and the store stays empty. *)
Theorem find_best_match_empty_gallery :
  forall (probe : Embedding) (threshold : Q) (encodings : list Embedding),
    find_best_match face_distance probe threshold Dict.empty
    = (None, Dict.empty)
    /\ match_all face_distance encodings Dict.empty = ([], Dict.empty).
Proof.
  intros probe threshold encodings. split; [reflexivity|].
  rewrite match_all_run. f_equal.
  induction encodings as [|p encs IH]; simpl; [reflexivity | exact IH].
Qed.

(** C5.  When no descriptor could be extracted from the images,
    [register_student] answers with a 400 failure and the store is the
    one it started from; more generally every failure answer leaves the
    store as it was. *)
Theorem register_student_rejects_without_descriptor :
  (forall (data : register_request) (sd : Store),
      extract (req_images data) = [] ->
      exists msg, register data sd = (Failure 400%nat msg, sd))
  /\ (forall (data : register_request) (sd sd' : Store)
             (status : nat) (msg : string),
        register data sd = (Failure status msg, sd') -> sd' = sd).
Proof.
  split.
  - intros data sd Hnone.
    destruct (register_student_cases data sd)
      as [(sid & nm & e & ds & _ & _ & H3 & _)|Hf]; [|assumption].
    rewrite Hnone in H3. discriminate.
  - intros data sd sd' status msg H.
    destruct (register_student_cases data sd)
      as [(sid & nm & e & ds & _ & _ & _ & H4)|[msg' Hf]].
    + rewrite H4 in H. discriminate.
    + rewrite Hf in H. now injection H.
Qed.

(** C10.  A successful [register_student] changes the entry of its own
    id only: every other id is bound as before, and the entries of the
    other ids, in order, are the same.  [find_best_match] returns the
    store it was given. *)
Theorem register_student_frame :
  (forall (data : register_request) (sd sd' : Store),
      register data sd = (Success tt, sd') ->
      exists sid,
        req_id data = Some sid
        /\ (forall k, k <> sid -> Dict.get k sd' = Dict.get k sd)
        /\ filter (fun entry => negb (String.eqb (fst entry) sid)) sd'
           = filter (fun entry => negb (String.eqb (fst entry) sid)) sd)
  /\ (forall (probe : Embedding) (threshold : Q) (sd : Store),
        snd (find_best_match face_distance probe threshold sd) = sd).
Proof.
  split.
  - intros data sd sd' Hreg.
    destruct (register_student_success data sd sd' Hreg)
      as (sid & nm & e & ds & H1 & _ & _ & ->).
    exists sid. split; [assumption|]. split.
    + intros k Hk. now apply DictFacts.get_set_other.
    + apply filter_set_other.
  - intros probe threshold sd. now rewrite find_best_match_run.
Qed.

Lemma exec_store_inv (op : operation) (sd : Store) :
  store_inv sd ->
  store_inv
    (snd (exec Image Box base64_to_image face_locations face_encodings
               face_distance op sd)).
Proof.
  intros Hsd. destruct op as [data|probe threshold|image_data|]; simpl.
  - unfold bind. fold register.
    destruct (register_student_cases data sd)
      as [(sid & nm & e & ds & _ & _ & _ & ->)|[msg ->]]; simpl.
    + apply store_inv_set; [discriminate | assumption].
    + assumption.
  - unfold bind. now rewrite find_best_match_run.
  - unfold bind. fold recognize.
    pose proof (recognize_faces_store image_data sd) as H.
    destruct (recognize image_data sd) as [r s]. simpl in *. now subst.
  - assumption.
Qed.

(** C6.  Every store reached from the empty one by a sequence of
    [register_student], [find_best_match], [recognize_faces] and
    [get_students] calls holds only students with at least one
    descriptor, and each of these calls keeps that property. *)
Theorem store_inv_reachable :
  (forall ops : list operation,
      store_inv
        (run Image Box base64_to_image face_locations face_encodings
             face_distance ops Dict.empty))
  /\ (forall (op : operation) (sd : Store),
        store_inv sd ->
        store_inv
          (snd (exec Image Box base64_to_image face_locations face_encodings
                     face_distance op sd))).
Proof.
  split; [|apply exec_store_inv].
  intros ops. unfold run.
  assert (H : store_inv Dict.empty) by constructor.
  revert H. generalize (@Dict.empty student) as sd.
  induction ops as [|op ops IH]; intros sd Hsd; simpl; [assumption|].
  apply IH. now apply exec_store_inv.
Qed.

(** C4.  After a successful [register_student] the id is bound to a
    record made of the new name and exactly the new descriptors,
    whatever was stored under it before; the loops of [find_best_match]
    meet that id with the new descriptors only, so a match naming the id
    comes from one of them. *)
Theorem register_student_replaces :
  forall (data : register_request) (sd sd' : Store),
    Dict.wf sd ->
    register data sd = (Success tt, sd') ->
    exists sid nm,
      req_id data = Some sid /\ req_name data = Some nm
      /\ Dict.get sid sd'
         = Some (mkStudent sid nm (extract (req_images data)))
      /\ (forall c,
            In c (candidates sd') -> fst (fst c) = sid ->
            snd (fst c) = mkStudent sid nm (extract (req_images data))
            /\ In (snd c) (extract (req_images data)))
      /\ (forall probe threshold m,
            fst (find_best_match face_distance probe threshold sd') = Some m ->
            studentId m = sid ->
            exists e,
              In e (extract (req_images data))
              /\ face_distance e probe < threshold
              /\ similarity m = 1 - face_distance e probe).
Proof.
  intros data sd sd' Hwf Hreg.
  destruct (register_student_success data sd sd' Hreg)
    as (sid & nm & e & ds & H1 & H2 & H3 & ->).
  exists sid, nm. rewrite H3.
  assert (Hcand : forall c,
             In c (candidates (Dict.set sid (mkStudent sid nm (e :: ds)) sd)) ->
             fst (fst c) = sid ->
             snd (fst c) = mkStudent sid nm (e :: ds) /\ In (snd c) (e :: ds)).
  { intros [[k v] d] Hc Hk. simpl in Hk. subst k.
    apply candidates_in in Hc as [Hentry Hd]. simpl in Hentry, Hd.
    apply (DictFacts.In_set sid _ sd sid v Hwf) in Hentry
      as [[_ ->]|[Hne _]]; [|now elim Hne].
    simpl. split; [reflexivity | exact Hd]. }
  repeat split; try assumption.
  - apply DictFacts.get_set_same.
  - now apply Hcand.
  - now apply Hcand.
  - intros probe threshold m Hm Hid.
    destruct (find_best_match_some face_distance probe threshold _ m Hm)
      as (l1 & c & l2 & Hl & -> & _ & _ & Ht & _).
    simpl in Hid.
    assert (Hin : In c (candidates (Dict.set sid (mkStudent sid nm (e :: ds)) sd)))
      by (rewrite Hl; apply in_or_app; right; now left).
    destruct (Hcand c Hin Hid) as [_ He].
    exists (snd c). repeat split; assumption.
Qed.

End Gallery.

(** ** The theorems at work on the sample store *)

Module SampleRuns.

Import Sample.

Local Open Scope string_scope.

Ltac by_computation := vm_compute; first [reflexivity | discriminate].

(** The scenario of the specification, with one-dimensional faces. *)
Example self_match :
  fst (lookup [0] (6 # 10) two_students) = Some (mkMatch "s1" "Alice" 1)
  /\ fst (lookup [5] (6 # 10) two_students) = Some (mkMatch "s2" "Bob" 1)
  /\ fst (lookup [2] (6 # 10) two_students) = None.
Proof. repeat split. Qed.

(** Three probes, the second without a match. *)
Example partial_results :
  fst (match_all abs_distance [[0]; [2]; [5]] two_students)
  = [mkMatch "s1" "Alice" 1; mkMatch "s2" "Bob" 1].
Proof. reflexivity. Qed.

(** A threshold above [1.0] does not let a distance of [2] through. *)
Example large_threshold :
  fst (lookup [2] 3 two_students) = None.
Proof. reflexivity. Qed.

Lemma find_best_match_capped_at_one_witness :
  fst (lookup [1 # 2] 3 two_students)
  = fst (lookup [1 # 2] (Qmin 3 1) two_students)
  /\ exists c,
       In c (candidates two_students)
       /\ mkMatch "s1" "Alice" (1 # 2) = match_of abs_distance [1 # 2] c
       /\ distance_to abs_distance [1 # 2] c < 1
       /\ distance_to abs_distance [1 # 2] c < 3.
Proof.
  destruct (find_best_match_capped_at_one abs_distance two_students [1 # 2] 3)
    as [Hmin Hsome].
  split; [exact Hmin|].
  apply Hsome. reflexivity.
Defined.

Lemma find_best_match_threshold_boundary_witness :
  (exists c, In c (candidates two_students)
             /\ distance_to abs_distance [6 # 10] c == 6 # 10)
  /\ (forall c, In c (candidates two_students) ->
                6 # 10 <= distance_to abs_distance [6 # 10] c)
  /\ fst (lookup [6 # 10] (6 # 10) two_students) = None.
Proof.
  assert (H1 : exists c, In c (candidates two_students)
                         /\ distance_to abs_distance [6 # 10] c == 6 # 10).
  { exists alice. split; [now left | by_computation]. }
  assert (H2 : forall c, In c (candidates two_students) ->
                         6 # 10 <= distance_to abs_distance [6 # 10] c).
  { intros c [<-|[<-|[]]]; by_computation. }
  split; [exact H1|]. split; [exact H2|].
  exact (find_best_match_threshold_boundary
           abs_distance two_students [6 # 10] (6 # 10) H1 H2).
Defined.

Lemma find_best_match_similarity_witness :
  Forall (fun c => 0 <= distance_to abs_distance [1 # 2] c)
         (candidates two_students)
  /\ 0 <= 1 # 2 /\ 1 # 2 <= 1.
Proof.
  assert (H : Forall (fun c => 0 <= distance_to abs_distance [1 # 2] c)
                     (candidates two_students)).
  { repeat constructor; by_computation. }
  split; [exact H|].
  exact (proj2 (find_best_match_similarity
                  abs_distance two_students [1 # 2] (6 # 10)
                  (mkMatch "s1" "Alice" (1 # 2)) H eq_refl)).
Defined.

Lemma find_best_match_first_seen_wins_witness :
  fst (lookup [1 # 4] (6 # 10) tie_students)
  = Some (match_of abs_distance [1 # 4] alice)
  /\ exists st,
       Dict.get "s3" (snd (exec_op (Enroll enroll_s3) two_students)) = Some st
       /\ candidates (snd (exec_op (Enroll enroll_s3) two_students))
          = (candidates two_students
             ++ map (fun e => ("s3", st, e)) (descriptors st))%list.
Proof.
  destruct (find_best_match_first_seen_wins
              Image Box base64_to_image face_locations face_encodings
              abs_distance) as [Htie Horder].
  split.
  - apply (Htie tie_students [1 # 4] (6 # 10) [] [near_bob] alice).
    + reflexivity.
    + by_computation.
    + by_computation.
    + constructor.
    + repeat constructor. by_computation.
  - apply (Horder enroll_s3 two_students _ "s3").
    + reflexivity.
    + reflexivity.
    + intros [H|[H|[]]]; discriminate H.
Defined.

Lemma two_students_wf : Dict.wf two_students.
Proof.
  repeat constructor.
  - intros [H|[]]. discriminate H.
  - intros [].
Defined.

Lemma register_student_replaces_witness :
  Dict.wf two_students
  /\ exists sid nm,
       req_id reenroll_s1 = Some sid /\ req_name reenroll_s1 = Some nm
       /\ Dict.get sid (snd (exec_op (Enroll reenroll_s1) two_students))
          = Some (mkStudent sid nm [[5]]).
Proof.
  split; [exact two_students_wf|].
  destruct (register_student_replaces
              Image Box base64_to_image face_locations face_encodings
              abs_distance reenroll_s1 two_students
              (snd (exec_op (Enroll reenroll_s1) two_students))
              two_students_wf eq_refl)
    as (sid & nm & Hid & Hnm & Hget & _).
  exists sid, nm. repeat split; assumption.
Defined.

Lemma register_student_rejects_without_descriptor_witness :
  extract_descriptors Image Box base64_to_image face_locations face_encodings
                      (req_images no_face) = []
  /\ (exists msg,
        register_student Image Box base64_to_image face_locations
                         face_encodings no_face two_students
        = (Failure 400%nat msg, two_students))
  /\ snd (exec_op (Enroll no_face) two_students) = two_students.
Proof.
  destruct (register_student_rejects_without_descriptor
              Image Box base64_to_image face_locations face_encodings)
    as [Hreject Hkeep].
  split; [reflexivity|]. split.
  - apply Hreject. reflexivity.
  - apply (Hkeep no_face two_students _ 400%nat
                 "No valid face descriptors could be extracted").
    reflexivity.
Defined.

Lemma register_student_frame_witness :
  (exists sid,
      req_id reenroll_s1 = Some sid
      /\ (forall k, k <> sid ->
            Dict.get k (snd (exec_op (Enroll reenroll_s1) two_students))
            = Dict.get k two_students)
      /\ filter (fun entry => negb (String.eqb (fst entry) sid))
                (snd (exec_op (Enroll reenroll_s1) two_students))
         = filter (fun entry => negb (String.eqb (fst entry) sid))
                  two_students)
  /\ snd (lookup [0] (6 # 10) two_students) = two_students.
Proof.
  destruct (register_student_frame
              Image Box base64_to_image face_locations face_encodings
              abs_distance) as [Hframe Hread].
  split.
  - apply Hframe. reflexivity.
  - apply Hread.
Defined.

Lemma store_inv_reachable_witness :
  store_inv (run_ops session Dict.empty)
  /\ store_inv two_students
  /\ store_inv (snd (exec_op (Enroll reenroll_s1) two_students)).
Proof.
  destruct (store_inv_reachable
              Image Box base64_to_image face_locations face_encodings
              abs_distance) as [Hreach Hstep].
  assert (H : store_inv two_students)
    by (repeat constructor; discriminate).
  split; [apply Hreach|]. split; [exact H|].
  apply (Hstep (Enroll reenroll_s1) two_students H).
Defined.

End SampleRuns.

(** ** Decoding of the image data *)

Module DecodeFacts.

Import Decode.

Local Open Scope string_scope.

Lemma append_empty_r (s : string) : s ++ EmptyString = s.
Proof. induction s as [|a s IH]; simpl; [reflexivity | now rewrite IH]. Qed.

Lemma prefix_append (sub s t : string) :
  String.prefix sub s = true -> String.prefix sub (s ++ t) = true.
Proof.
  revert s. induction sub as [|a sub IH]; intros s;
    [intros _; now destruct (s ++ t)|].
  destruct s as [|b s]; simpl; [discriminate|].
  destruct (ascii_dec a b); [apply IH | discriminate].
Qed.

Lemma contains_cons (sub : string) (a : ascii) (s : string) :
  contains sub (String a s)
  = if String.prefix sub (String a s) then true else contains sub s.
Proof. reflexivity. Qed.

Lemma contains_append (sub s t : string) :
  contains sub s = true -> contains sub (s ++ t) = true.
Proof.
  induction s as [|a s IH].
  - destruct sub as [|b sub]; [intros _; now destruct t | discriminate].
  - change (String a s ++ t) with (String a (s ++ t)).
    rewrite !contains_cons.
    destruct (String.prefix sub (String a s)) eqn:E.
    + intros _. apply (prefix_append _ _ t) in E.
      change (String a s ++ t) with (String a (s ++ t)) in E. now rewrite E.
    + intros H. rewrite (IH H).
      destruct (String.prefix sub (String a (s ++ t))); reflexivity.
Qed.

Lemma split_not_nil (sep : ascii) (s : string) : split sep s <> [].
Proof.
  destruct s as [|a s]; simpl; [discriminate|].
  destruct (Ascii.eqb a sep); [discriminate|].
  destruct (split sep s); discriminate.
Qed.

(** A piece without separator is split off whole. *)
Lemma split_head (sep : ascii) (pre rest : string) :
  ~ In sep (list_ascii_of_string pre) ->
  split sep (pre ++ String sep rest) = pre :: split sep rest.
Proof.
  induction pre as [|a pre IH]; simpl; intros Hpre.
  - now rewrite Ascii.eqb_refl.
  - destruct (Ascii.eqb a sep) eqn:E.
    + apply Ascii.eqb_eq in E. elim Hpre. now left.
    + rewrite IH; [reflexivity|]. intros H. apply Hpre. now right.
Qed.

Lemma split_whole (sep : ascii) (s : string) :
  ~ In sep (list_ascii_of_string s) -> split sep s = [s].
Proof.
  induction s as [|a s IH]; simpl; intros Hs; [reflexivity|].
  destruct (Ascii.eqb a sep) eqn:E.
  - apply Ascii.eqb_eq in E. elim Hs. now left.
  - rewrite IH; [reflexivity|]. intros H. apply Hs. now right.
Qed.

(** No piece of a split holds the separator. *)
Lemma split_pieces (sep : ascii) (s : string) :
  Forall (fun piece => ~ In sep (list_ascii_of_string piece)) (split sep s).
Proof.
  induction s as [|a s IH]; simpl.
  - constructor; [intros [] | constructor].
  - destruct (Ascii.eqb a sep) eqn:E.
    + constructor; [intros [] | exact IH].
    + apply Ascii.eqb_neq in E.
      destruct (split sep s) as [|piece pieces].
      * constructor; [|constructor]. simpl. intros [H|[]]. now apply E.
      * inversion IH as [|? ? Hp Hps]; subst. constructor; [|assumption].
        simpl. intros [H|H]; [now apply E | now apply Hp].
Qed.

(** The first piece of a split is a prefix that stops at the end or at a
    separator. *)
Lemma split_first (sep : ascii) (s : string) :
  forall piece pieces,
    split sep s = piece :: pieces ->
    exists tail,
      s = piece ++ tail
      /\ (tail = EmptyString \/ exists rest, tail = String sep rest).
Proof.
  induction s as [|a s IH]; simpl; intros piece pieces H.
  - injection H as <- <-. exists EmptyString. split; [reflexivity | now left].
  - destruct (Ascii.eqb a sep) eqn:E.
    + apply Ascii.eqb_eq in E. subst a. injection H as <- <-.
      exists (String sep s). split; [reflexivity | right; now exists s].
    + destruct (split sep s) as [|p ps] eqn:Es;
        [now elim (split_not_nil sep s)|].
      injection H as <- <-.
      destruct (IH p ps eq_refl) as (tail & -> & Htail).
      exists tail. split; [reflexivity | assumption].
Qed.

Lemma split_second (sep : ascii) (s : string) :
  forall p1 p2 pieces,
    split sep s = p1 :: p2 :: pieces ->
    exists tail,
      s = p1 ++ String sep (p2 ++ tail)
      /\ (tail = EmptyString \/ exists rest, tail = String sep rest).
Proof.
  induction s as [|a s IH]; simpl; intros p1 p2 pieces H; [discriminate|].
  destruct (Ascii.eqb a sep) eqn:E.
  - apply Ascii.eqb_eq in E. subst a. injection H as <- H.
    destruct (split_first sep s p2 pieces H) as (tail & -> & Htail).
    exists tail. split; [reflexivity | assumption].
  - destruct (split sep s) as [|p ps] eqn:Es; [discriminate|].
    injection H as <- ->.
    destruct (IH p p2 pieces eq_refl) as (tail & -> & Htail).
    exists tail. split; [reflexivity | assumption].
Qed.

(** X1.  On a data URL, that is a header holding [data:image] and no
    comma, then a comma, then a body without comma, [strip_data_url]
    returns the body; whatever follows a second comma is dropped. *)
Theorem strip_data_url_body :
  forall header body tail : string,
    contains "data:image" header = true ->
    ~ In ","%char (list_ascii_of_string header) ->
    ~ In ","%char (list_ascii_of_string body) ->
    tail = EmptyString \/ (exists rest, tail = String ","%char rest) ->
    strip_data_url (header ++ String ","%char (body ++ tail)) = Ok body.
Proof.
  intros header body tail Hmark Hheader Hbody Htail.
  unfold strip_data_url.
  rewrite (contains_append _ _ _ Hmark), (split_head _ _ _ Hheader).
  destruct Htail as [->|[rest ->]].
  - now rewrite append_empty_r, (split_whole _ _ Hbody).
  - now rewrite (split_head _ _ _ Hbody).
Qed.

(** X2.  Whenever [strip_data_url] returns a payload: without the marker
    [data:image] the payload is the input itself; with it the payload
    holds no comma and is the text between the first comma of the input
    and the next comma or the end. *)
Theorem strip_data_url_payload :
  forall s payload : string,
    strip_data_url s = Ok payload ->
    if contains "data:image" s
    then ~ In ","%char (list_ascii_of_string payload)
         /\ exists header tail,
              s = header ++ String ","%char (payload ++ tail)
              /\ ~ In ","%char (list_ascii_of_string header)
              /\ (tail = EmptyString \/ exists rest, tail = String ","%char rest)
    else payload = s.
Proof.
  intros s payload. unfold strip_data_url.
  destruct (contains "data:image" s); [|now intros [= <-]].
  pose proof (split_pieces ","%char s) as Hpieces.
  destruct (split ","%char s) as [|p1 [|p2 pieces]] eqn:Es; try discriminate.
  intros [= <-].
  inversion Hpieces as [|? ? H1 Hrest]; subst.
  inversion Hrest as [|? ? H2 _]; subst.
  split; [assumption|].
  destruct (split_second _ _ _ _ _ Es) as (tail & Hs & Htail).
  exists p1, tail. repeat split; assumption.
Qed.

Section Handlers.

Variable Image : Type.
Variable Box : Type.
Variable open_image : string -> result Image.
Variable face_locations : Image -> result (list Box).
Variable face_encodings : Image -> list Box -> result (list Embedding).
Variable face_distance : Embedding -> Embedding -> Q.

(** X3.  Image data that holds [data:image] and no comma makes
    [base64_to_image] raise the [IndexError] before anything is decoded:
    [register_student] skips that image, [recognize_faces] answers 500
    with the error text, and the store is left as it was. *)
Theorem data_url_without_comma :
  forall (s : string) (sd : Store),
    contains "data:image" s = true ->
    ~ In ","%char (list_ascii_of_string s) ->
    base64_to_image Image open_image s = Raise "list index out of range"
    /\ extract_descriptor Image Box (base64_to_image Image open_image)
                          face_locations face_encodings s = None
    /\ recognize_faces Image Box (base64_to_image Image open_image)
                       face_locations face_encodings face_distance
                       (Some s) sd
       = (Failure 500%nat "list index out of range", sd).
Proof.
  intros s sd Hmark Hcomma.
  assert (Hraise : base64_to_image Image open_image s
                   = Raise "list index out of range").
  { unfold base64_to_image, strip_data_url.
    now rewrite Hmark, (split_whole _ _ Hcomma). }
  split; [exact Hraise|]. split.
  - unfold extract_descriptor. now rewrite Hraise.
  - unfold recognize_faces.
    assert (Hs : falsy (Some s) = false) by (destruct s; [discriminate Hmark | reflexivity]).
    now rewrite Hs, Hraise.
Qed.

End Handlers.

End DecodeFacts.

(** ** More on enrolment *)

Section Enrollment.

Variable Image : Type.
Variable Box : Type.
Variable base64_to_image : string -> result Image.
Variable face_locations : Image -> result (list Box).
Variable face_encodings : Image -> list Box -> result (list Embedding).
Variable face_distance : Embedding -> Embedding -> Q.

Let register :=
  register_student Image Box base64_to_image face_locations face_encodings.
Let extract_one :=
  extract_descriptor Image Box base64_to_image face_locations face_encodings.
Let extract :=
  extract_descriptors Image Box base64_to_image face_locations face_encodings.
Let listing := get_students.
Let run_ops :=
  run Image Box base64_to_image face_locations face_encodings face_distance.

Lemma extract_from (images : list string) : forall acc : list Embedding,
  fold_left
    (fun acc img_data =>
       match extract_one img_data with
       | Some e => acc ++ [e]
       | None => acc
       end)
    images acc
  = acc ++ flat_map
             (fun img_data =>
                match extract_one img_data with
                | Some e => [e]
                | None => []
                end)
             images.
Proof.
  induction images as [|i images IH]; intros acc; simpl.
  - now rewrite app_nil_r.
  - rewrite IH. destruct (extract_one i); [now rewrite <- app_assoc | reflexivity].
Qed.

Lemma extract_flat_map (images : list string) :
  extract images
  = flat_map
      (fun img_data =>
         match extract_one img_data with
         | Some e => [e]
         | None => []
         end)
      images.
Proof. apply (extract_from images []). Qed.

(** X4.  The descriptors of a registration follow the order of the
    images, each image giving one descriptor or none: the extraction of a
    concatenation is the concatenation of the extractions, and there are
    never more descriptors than images. *)
Theorem extract_descriptors_in_order :
  forall images more : list string,
    extract (images ++ more) = extract images ++ extract more
    /\ (List.length (extract images) <= List.length images)%nat
    /\ (forall e, In e (extract images) <->
                  exists img_data, In img_data images
                                   /\ extract_one img_data = Some e).
Proof.
  intros images more. rewrite !extract_flat_map. split; [apply flat_map_app|].
  split.
  - induction images as [|i images IH]; simpl; [constructor|].
    rewrite length_app. destruct (extract_one i); simpl; lia.
  - intros e. rewrite in_flat_map. split.
    + intros (i & Hi & He). exists i. split; [assumption|].
      destruct (extract_one i) as [e'|]; [|destruct He].
      destruct He as [->|[]]. reflexivity.
    + intros (i & Hi & He). exists i. split; [assumption|].
      rewrite He. now left.
Qed.

(** X5.  An image gives a descriptor exactly when it decodes, exactly one
    face is located in it and an encoding is computed for that face; the
    descriptor is the first encoding. *)
Theorem extract_descriptor_one_face :
  forall (img_data : string) (e : Embedding),
    extract_one img_data = Some e
    <-> exists image location encodings,
          base64_to_image img_data = Ok image
          /\ face_locations image = Ok [location]
          /\ face_encodings image [location] = Ok (e :: encodings).
Proof.
  intros img_data e. unfold extract_one, extract_descriptor. split.
  - destruct (base64_to_image img_data) as [image|]; [|discriminate].
    destruct (face_locations image) as [[|l [|l' ls]]|] eqn:El;
      simpl; try discriminate.
    destruct (face_encodings image [l]) as [[|e' encs]|] eqn:Ee;
      try discriminate.
    intros [= <-]. now exists image, l, encs.
  - intros (image & l & encs & -> & -> & ->). reflexivity.
Qed.

(** X6.  An image that fails to decode, in which face detection raises,
    or in which no face or several faces are located, changes nothing to
    the descriptors taken from the other images. *)
Theorem extract_descriptors_skips :
  forall (before after : list string) (bad : string),
    (exists msg, base64_to_image bad = Raise msg)
    \/ (exists image,
          base64_to_image bad = Ok image
          /\ ((exists msg, face_locations image = Raise msg)
              \/ exists locations,
                   face_locations image = Ok locations
                   /\ List.length locations <> 1%nat)) ->
    extract (before ++ bad :: after) = extract (before ++ after).
Proof.
  intros before after bad Hbad.
  assert (Hnone : extract_one bad = None).
  { unfold extract_one, extract_descriptor.
    destruct Hbad as [[msg ->]|(image & -> & [[msg ->]|(locs & -> & Hlen)])];
      try reflexivity.
    apply Nat.eqb_neq in Hlen. now rewrite Hlen. }
  rewrite !extract_flat_map, !flat_map_app. simpl. now rewrite Hnone.
Qed.

(** X7.  [register_student] answers success exactly when the id and the
    name are present and not empty and at least one image gives a
    descriptor; every other answer is a 400, with the message
    [Missing required data] when a field is missing or empty or there is
    no image. *)
Theorem register_student_outcome :
  forall (data : register_request) (sd : Store),
    (fst (register data sd) = Success tt
     <-> falsy (req_id data) = false /\ falsy (req_name data) = false
         /\ extract (req_images data) <> [])
    /\ (falsy (req_id data) = true \/ falsy (req_name data) = true
        \/ req_images data = [] ->
        register data sd
        = (Failure 400%nat "Missing required data"%string, sd))
    /\ (forall status msg,
          fst (register data sd) = Failure status msg -> status = 400%nat).
Proof.
  intros data sd. unfold register, register_student. fold extract.
  destruct (falsy (req_id data)) eqn:Eid; simpl.
  { repeat split; try discriminate; try (intros (H & _); discriminate H).
    now intros status msg [= <- _]. }
  destruct (falsy (req_name data)) eqn:Enm; simpl.
  { repeat split; try discriminate; try (intros (_ & H & _); discriminate H).
    now intros status msg [= <- _]. }
  destruct (req_id data) as [sid|]; [|discriminate Eid].
  destruct (req_name data) as [nm|]; [|discriminate Enm].
  destruct (req_images data) as [|i images] eqn:Ei.
  { repeat split; try discriminate.
    - intros (_ & _ & H). now elim H.
    - now intros status msg [= <- _]. }
  destruct (extract (i :: images)) as [|e ds]; simpl.
  - repeat split; try discriminate.
    + intros (_ & _ & H). now elim H.
    + intros [H|[H|H]]; discriminate H.
    + now intros status msg [= <- _].
  - repeat split; try discriminate.
    intros [H|[H|H]]; discriminate H.
Qed.

Lemma set_set (k : string) (v : student) (sd : Store) :
  Dict.set k v (Dict.set k v sd) = Dict.set k v sd.
Proof.
  induction sd as [|[k0 v0] sd IH]; simpl.
  - now rewrite String.eqb_refl.
  - destruct (String.eqb k k0) eqn:E; simpl.
    + now rewrite String.eqb_refl.
    + now rewrite E, IH.
Qed.

Lemma in_set_same (k : string) (v : student) (sd : Store) :
  In (k, v) (Dict.set k v sd).
Proof.
  induction sd as [|[k0 v0] sd IH]; simpl; [now left|].
  destruct (String.eqb k k0); [now left | now right].
Qed.

Lemma set_fresh (k : string) (v : student) (sd : Store) :
  existsb (String.eqb k) (Dict.keys sd) = false ->
  Dict.set k v sd = sd ++ [(k, v)].
Proof.
  unfold Dict.keys. induction sd as [|[k0 v0] sd IH]; simpl; [reflexivity|].
  destruct (String.eqb k k0); simpl; [discriminate|].
  intros H. now rewrite IH.
Qed.

Lemma length_set (k : string) (v : student) (sd : Store) :
  List.length (Dict.set k v sd)
  = if existsb (String.eqb k) (Dict.keys sd)
    then List.length sd else S (List.length sd).
Proof.
  unfold Dict.keys. induction sd as [|[k0 v0] sd IH]; simpl; [reflexivity|].
  destruct (String.eqb k k0); simpl; [reflexivity|].
  rewrite IH. now destruct (existsb _ _).
Qed.

(** The store after an operation is the store before, or that store with
    one student set. *)
Lemma exec_store (op : operation) (sd : Store) :
  snd (exec Image Box base64_to_image face_locations face_encodings
            face_distance op sd) = sd
  \/ exists sid nm e ds,
       snd (exec Image Box base64_to_image face_locations face_encodings
                 face_distance op sd)
       = Dict.set sid (mkStudent sid nm (e :: ds)) sd.
Proof.
  destruct op as [data|probe threshold|image_data|]; simpl.
  - unfold bind.
    destruct (register_student_cases Image Box base64_to_image face_locations
                face_encodings data sd)
      as [(sid & nm & e & ds & _ & _ & _ & ->)|[msg ->]]; simpl.
    + right. now exists sid, nm, e, ds.
    + now left.
  - left. unfold bind. now rewrite find_best_match_run.
  - left. unfold bind.
    pose proof (recognize_faces_store Image Box base64_to_image face_locations
                  face_encodings face_distance image_data sd) as H.
    destruct (recognize_faces _ _ _ _ _ _ image_data sd) as [r s].
    simpl in *. now subst.
  - now left.
Qed.

(** Induction over the stores reached from the empty one. *)
Lemma run_ind (P : Store -> Prop) :
  P Dict.empty ->
  (forall sd sid nm e ds,
      P sd -> P (Dict.set sid (mkStudent sid nm (e :: ds)) sd)) ->
  forall ops, P (run_ops ops Dict.empty).
Proof.
  intros Hempty Hset ops. unfold run_ops, run.
  revert Hempty. generalize (@Dict.empty student) as sd.
  induction ops as [|op ops IH]; intros sd Hsd; simpl; [assumption|].
  apply IH.
  destruct (exec_store op sd) as [->|(sid & nm & e & ds & ->)];
    [assumption | now apply Hset].
Qed.

(** The answer of [register_student] does not depend on the store. *)
Lemma register_student_answer (data : register_request) (sd sd' : Store) :
  fst (register data sd) = fst (register data sd').
Proof.
  unfold register, register_student.
  destruct (falsy (req_id data) || falsy (req_name data)
            || match req_images data with [] => true | _ :: _ => false end);
    [reflexivity|].
  destruct (req_id data); [|reflexivity].
  destruct (req_name data); [|reflexivity].
  now destruct (extract_descriptors _ _ _ _ _ (req_images data)).
Qed.

(** X8.  Sending the same registration twice gives the same answer and
    leaves the store as the first one left it. *)
Theorem register_student_twice :
  forall (data : register_request) (sd : Store),
    register data (snd (register data sd))
    = (fst (register data sd), snd (register data sd)).
Proof.
  intros data sd. unfold register.
  destruct (register_student_cases Image Box base64_to_image face_locations
              face_encodings data sd)
    as [(sid & nm & e & ds & H1 & H2 & H3 & H4)|[msg Hf]].
  - rewrite H4. simpl.
    destruct (register_student_cases Image Box base64_to_image face_locations
                face_encodings data
                (Dict.set sid (mkStudent sid nm (e :: ds)) sd))
      as [(sid' & nm' & e' & ds' & H1' & H2' & H3' & H4')|[msg' Hf']].
    + rewrite H4'. rewrite H1 in H1'. rewrite H2 in H2'. rewrite H3 in H3'.
      injection H1' as <-. injection H2' as <-. injection H3' as <- <-.
      now rewrite set_set.
    + pose proof (register_student_answer data sd
                    (Dict.set sid (mkStudent sid nm (e :: ds)) sd)) as Hans.
      unfold register in Hans. rewrite H4, Hf' in Hans. discriminate Hans.
  - rewrite Hf. simpl. exact Hf.
Qed.

Lemma get_in (k : string) (v : student) (sd : Store) :
  Dict.wf sd -> In (k, v) sd -> Dict.get k sd = Some v.
Proof.
  unfold Dict.wf, Dict.keys.
  induction sd as [|[k0 v0] sd IH]; simpl; intros Hwf Hin; [destruct Hin|].
  inversion Hwf as [|? ? Hk0 Hwf']; subst.
  destruct Hin as [H|H].
  - injection H as -> ->. now rewrite String.eqb_refl.
  - destruct (String.eqb k k0) eqn:E; [|now apply IH].
    apply String.eqb_eq in E. subst k0. elim Hk0.
    now apply (in_map fst) in H.
Qed.

Lemma Forall_set (P : string * student -> Prop)
    (k : string) (v : student) (sd : Store) :
  P (k, v) -> Forall P sd -> Forall P (Dict.set k v sd).
Proof.
  intros Hv. induction sd as [|[k0 v0] sd IH]; simpl; intros Hsd.
  - now constructor.
  - inversion Hsd as [|? ? H0 Hsd']; subst.
    destruct (String.eqb k k0); constructor; auto.
Qed.

(** What a registration does to the store does not depend on the store:
    nothing, or one assignment. *)
Lemma register_student_effect (data : register_request) :
  (forall sd, snd (register data sd) = sd)
  \/ (exists sid st,
        req_id data = Some sid
        /\ forall sd, snd (register data sd) = Dict.set sid st sd).
Proof.
  unfold register, register_student.
  destruct (falsy (req_id data) || falsy (req_name data)
            || match req_images data with [] => true | _ :: _ => false end);
    [now left|].
  destruct (req_id data) as [sid|]; [|now left].
  destruct (req_name data) as [nm|]; [|now left].
  destruct (extract_descriptors _ _ _ _ _ (req_images data)) as [|e ds];
    [now left|].
  right. exists sid, (mkStudent sid nm (e :: ds)). split; reflexivity.
Qed.

(** X9.  After a successful registration [get_students] lists the id with
    the name just given; for an id not yet stored the listing is the old
    one with that pair added at the end, for a stored id the listing
    keeps its length. *)
Theorem register_student_listed :
  forall (data : register_request) (sd sd' : Store),
    register data sd = (Success tt, sd') ->
    exists sid nm,
      req_id data = Some sid /\ req_name data = Some nm
      /\ In (sid, nm) (fst (listing sd'))
      /\ (existsb (String.eqb sid) (Dict.keys sd) = false ->
          fst (listing sd') = fst (listing sd) ++ [(sid, nm)])
      /\ (existsb (String.eqb sid) (Dict.keys sd) = true ->
          List.length (fst (listing sd')) = List.length (fst (listing sd))).
Proof.
  intros data sd sd' Hreg.
  destruct (register_student_success Image Box base64_to_image face_locations
              face_encodings data sd sd' Hreg)
    as (sid & nm & e & ds & H1 & H2 & _ & ->).
  exists sid, nm. split; [assumption|]. split; [assumption|].
  unfold listing, get_students, bind, get, ret, Dict.values. simpl.
  split; [|split].
  - apply in_map_iff. exists (mkStudent sid nm (e :: ds)). split; [reflexivity|].
    apply in_map_iff. exists (sid, mkStudent sid nm (e :: ds)).
    split; [reflexivity | apply in_set_same].
  - intros Hfresh. rewrite (set_fresh _ _ _ Hfresh), !map_app. reflexivity.
  - intros Hold. rewrite !length_map, length_set. now rewrite Hold.
Qed.

(** X10.  In every store reached from the empty one, [get_students] lists
    each stored id once, in the order of the store's keys, and each
    listed pair is the id and name of a stored student who has at least
    one descriptor. *)
Theorem get_students_reachable :
  forall ops : list operation,
    map fst (fst (listing (run_ops ops Dict.empty)))
    = Dict.keys (run_ops ops Dict.empty)
    /\ NoDup (map fst (fst (listing (run_ops ops Dict.empty))))
    /\ (forall sid nm,
          In (sid, nm) (fst (listing (run_ops ops Dict.empty))) ->
          exists ds,
            Dict.get sid (run_ops ops Dict.empty)
            = Some (mkStudent sid nm ds)
            /\ ds <> []).
Proof.
  intros ops.
  assert (Hinv : Dict.wf (run_ops ops Dict.empty)
                 /\ Forall (fun entry => id (snd entry) = fst entry
                                        /\ descriptors (snd entry) <> [])
                           (run_ops ops Dict.empty)).
  { apply (run_ind (fun sd => Dict.wf sd
                     /\ Forall (fun entry => id (snd entry) = fst entry
                                            /\ descriptors (snd entry) <> [])
                               sd)).
    - split; constructor.
    - intros sd sid nm e ds [Hwf Hall]. split.
      + now apply DictFacts.wf_set.
      + apply Forall_set; [|assumption]. simpl. split; [reflexivity | discriminate]. }
  destruct Hinv as [Hwf Hall]. revert Hwf Hall.
  generalize (run_ops ops Dict.empty) as sd. intros sd Hwf Hall.
  assert (Hkeys : map fst (fst (listing sd)) = Dict.keys sd).
  { unfold listing, get_students, bind, get, ret, Dict.values, Dict.keys.
    simpl. rewrite !map_map. apply map_ext_in.
    intros entry Hentry. rewrite Forall_forall in Hall.
    now destruct (Hall entry Hentry). }
  split; [exact Hkeys|]. split; [now rewrite Hkeys|].
  intros sid nm Hin.
  unfold listing, get_students, bind, get, ret, Dict.values in Hin.
  simpl in Hin. rewrite map_map in Hin.
  apply in_map_iff in Hin as ([k st] & Heq & Hentry). simpl in Heq.
  injection Heq as <- <-.
  rewrite Forall_forall in Hall. destruct (Hall _ Hentry) as [Hid Hds].
  simpl in Hid, Hds. subst k.
  exists (descriptors st). split; [|assumption].
  rewrite (get_in _ _ _ Hwf Hentry). now destruct st.
Qed.

(** X11.  Two registrations with different ids can be sent in either
    order: every id is bound to the same record afterwards. *)
Theorem register_student_commutes :
  forall (data1 data2 : register_request) (sd : Store) (k : string),
    req_id data1 <> req_id data2 ->
    Dict.get k (snd (register data2 (snd (register data1 sd))))
    = Dict.get k (snd (register data1 (snd (register data2 sd)))).
Proof.
  intros data1 data2 sd k Hids.
  destruct (register_student_effect data1) as [H1|(sid1 & st1 & Hid1 & H1)];
    destruct (register_student_effect data2) as [H2|(sid2 & st2 & Hid2 & H2)];
    rewrite ?H1, ?H2; try reflexivity.
  assert (Hne : sid1 <> sid2) by congruence.
  destruct (String.eqb_spec k sid1) as [->|Hk1].
  - rewrite DictFacts.get_set_other by assumption.
    now rewrite !DictFacts.get_set_same.
  - rewrite (DictFacts.get_set_other sid1 k st1) by assumption.
    destruct (String.eqb_spec k sid2) as [->|Hk2].
    + now rewrite !DictFacts.get_set_same.
    + now rewrite !DictFacts.get_set_other by assumption.
Qed.

End Enrollment.

(** ** More on the matcher *)

Section Nearest.

Variable Image : Type.
Variable Box : Type.
Variable base64_to_image : string -> result Image.
Variable face_locations : Image -> result (list Box).
Variable face_encodings : Image -> list Box -> result (list Embedding).
Variable face_distance : Embedding -> Embedding -> Q.

Let dist := distance_to face_distance.
Let lookup := find_best_match face_distance.
Let register :=
  register_student Image Box base64_to_image face_locations face_encodings.
Let extract :=
  extract_descriptors Image Box base64_to_image face_locations face_encodings.

(** No answer means that no stored descriptor qualifies. *)
Lemma find_best_match_none (probe : Embedding) (threshold : Q) (sd : Store) :
  fst (lookup probe threshold sd) = None ->
  Forall (fun c => ~ (dist probe c < 1 /\ dist probe c < threshold))
         (candidates sd).
Proof.
  unfold lookup. rewrite find_best_match_scan.
  destruct (fold_step_spec face_distance probe threshold (candidates sd) (None, 1))
    as [[_ Hall]|(l1 & c & l2 & _ & -> & _)]; [|discriminate].
  intros _. exact Hall.
Qed.

(** The first candidate of least distance wins when it qualifies. *)
Lemma find_best_match_winner (probe : Embedding) (threshold : Q) (sd : Store)
    (l1 l2 : list candidate) (c : candidate) :
  candidates sd = l1 ++ c :: l2 ->
  dist probe c < 1 ->
  dist probe c < threshold ->
  Forall (fun c' => dist probe c < dist probe c') l1 ->
  Forall (fun c' => dist probe c <= dist probe c') l2 ->
  fst (lookup probe threshold sd) = Some (match_of face_distance probe c).
Proof.
  intros Hl Hc1 Hct H1 H2. unfold lookup.
  rewrite find_best_match_scan, Hl, fold_left_app. simpl.
  pose proof (fold_step_above face_distance probe threshold
                (dist probe c) l1 (None, 1) Hc1 H1) as Habove.
  rewrite (step_taken face_distance probe threshold _ c Habove Hct).
  now rewrite fold_step_keep.
Qed.

Lemma least_of_split (probe : Embedding) (l l1 l2 : list candidate)
    (c : candidate) :
  l = l1 ++ c :: l2 ->
  Forall (fun c' => dist probe c < dist probe c') l1 ->
  Forall (fun c' => dist probe c <= dist probe c') l2 ->
  forall c', In c' l -> dist probe c <= dist probe c'.
Proof.
  intros -> H1 H2 c' Hc'. apply in_app_or in Hc' as [Hc'|[<-|Hc']].
  - rewrite Forall_forall in H1. apply Qlt_le_weak. now apply H1.
  - apply Qle_refl.
  - rewrite Forall_forall in H2. now apply H2.
Qed.

(** An answer comes from a stored descriptor that no other one beats. *)
Lemma find_best_match_least (probe : Embedding) (threshold : Q) (sd : Store)
    (m : match_result) :
  fst (lookup probe threshold sd) = Some m ->
  exists c,
    In c (candidates sd)
    /\ m = match_of face_distance probe c
    /\ dist probe c < threshold
    /\ forall c', In c' (candidates sd) -> dist probe c <= dist probe c'.
Proof.
  intros Hm.
  destruct (find_best_match_some face_distance probe threshold sd m Hm)
    as (l1 & c & l2 & Hl & -> & _ & _ & Ht & H1 & H2).
  exists c. split; [rewrite Hl; apply in_or_app; right; now left|].
  split; [reflexivity|]. split; [assumption|].
  now apply (least_of_split probe _ l1 l2).
Qed.

(** X12.  [find_best_match] answers [None] exactly when no stored
    descriptor is at a distance below both [1] and [threshold]. *)
Theorem find_best_match_none_iff :
  forall (probe : Embedding) (threshold : Q) (sd : Store),
    fst (lookup probe threshold sd) = None
    <-> Forall (fun c => ~ (dist probe c < 1 /\ dist probe c < threshold))
               (candidates sd).
Proof.
  intros probe threshold sd. split; [apply find_best_match_none|].
  intros Hall.
  destruct (fst (lookup probe threshold sd)) as [m|] eqn:E; [|reflexivity].
  destruct (find_best_match_some face_distance probe threshold sd m E)
    as (l1 & c & l2 & Hl & _ & _ & Hc1 & Hct & _).
  rewrite Forall_forall in Hall. elim (Hall c); [|now split].
  rewrite Hl. apply in_or_app. right. now left.
Qed.

(** X13.  A returned match is a nearest one: its score is at least
    [1 - distance] for every stored descriptor. *)
Theorem find_best_match_nearest :
  forall (probe : Embedding) (threshold : Q) (sd : Store) (m : match_result),
    fst (lookup probe threshold sd) = Some m ->
    forall c, In c (candidates sd) -> 1 - dist probe c <= similarity m.
Proof.
  intros probe threshold sd m Hm c Hc.
  destruct (find_best_match_least probe threshold sd m Hm)
    as (c0 & _ & -> & _ & Hleast).
  specialize (Hleast c Hc). unfold dist in *. simpl. lra.
Qed.

(** X14.  The match does not depend on the threshold: a match found with
    one threshold is the match found with any larger one, and two
    thresholds that both give a match give the same one. *)
Theorem find_best_match_threshold_free :
  forall (probe : Embedding) (sd : Store) (t t' : Q) (m : match_result),
    fst (lookup probe t sd) = Some m ->
    (t <= t' -> fst (lookup probe t' sd) = Some m)
    /\ (forall m', fst (lookup probe t' sd) = Some m' -> m' = m).
Proof.
  intros probe sd t t' m Hm.
  destruct (find_best_match_some face_distance probe t sd m Hm)
    as (l1 & c & l2 & Hl & -> & _ & Hc1 & Hct & H1 & H2).
  assert (Hup : forall u, dist probe c < u ->
                          fst (lookup probe u sd)
                          = Some (match_of face_distance probe c)).
  { intros u Hu. now apply (find_best_match_winner probe u sd l1 l2 c). }
  split.
  - intros Hle. apply Hup. now apply Qlt_le_trans with t.
  - intros m' Hm'.
    destruct (find_best_match_least probe t' sd m' Hm')
      as (c' & Hc' & _ & Hct' & _).
    assert (Hlt : dist probe c < t').
    { apply Qle_lt_trans with (dist probe c'); [|assumption].
      now apply (least_of_split probe _ l1 l2 c Hl H1 H2). }
    rewrite (Hup t' Hlt) in Hm'. now injection Hm'.
Qed.

(** X15.  A face just registered is recognised: when the distance of a
    stored descriptor to itself is [0], no distance to the probe is
    negative and the threshold is positive, probing with a descriptor of
    a successful registration returns a match of score [1]. *)
Theorem register_then_match :
  forall (data : register_request) (sd sd' : Store)
         (e : Embedding) (threshold : Q),
    register data sd = (Success tt, sd') ->
    In e (extract (req_images data)) ->
    face_distance e e == 0 ->
    Forall (fun c => 0 <= dist e c) (candidates sd') ->
    0 < threshold ->
    exists m, fst (lookup e threshold sd') = Some m /\ similarity m == 1.
Proof.
  intros data sd sd' e threshold Hreg He Hself Hpos Hthr.
  destruct (register_student_success Image Box base64_to_image face_locations
              face_encodings data sd sd' Hreg)
    as (sid & nm & e0 & ds & _ & _ & Hds & ->).
  unfold extract in He. rewrite Hds in He.
  set (st := mkStudent sid nm (e0 :: ds)) in *.
  assert (Hin : In (sid, st, e) (candidates (Dict.set sid st sd))).
  { apply candidates_in. simpl. split; [apply in_set_same | exact He]. }
  assert (Hd : dist e (sid, st, e) == 0) by exact Hself.
  destruct (fst (lookup e threshold (Dict.set sid st sd))) as [m|] eqn:E.
  - exists m. split; [reflexivity|].
    destruct (find_best_match_least e threshold _ m E)
      as (c & Hc & -> & _ & Hleast).
    specialize (Hleast _ Hin). rewrite Forall_forall in Hpos.
    specialize (Hpos c Hc). unfold dist in *. simpl. lra.
  - exfalso. pose proof (find_best_match_none e threshold _ E) as Hnone.
    rewrite Forall_forall in Hnone. apply (Hnone _ Hin).
    unfold dist in *. split; lra.
Qed.

(** The answers of [recognize_faces]. *)
Lemma recognize_faces_cases (image_data : option string) (sd : Store) :
  let r :=
    fst (recognize_faces Image Box base64_to_image face_locations
           face_encodings face_distance image_data sd) in
  (falsy image_data = true
   /\ r = Failure 400%nat "No image provided"%string)
  \/ (falsy image_data = false
      /\ exists s,
           image_data = Some s
           /\ ((exists msg,
                  r = Failure 500%nat msg
                  /\ (base64_to_image s = Raise msg
                      \/ exists image,
                           base64_to_image s = Ok image
                           /\ (face_locations image = Raise msg
                               \/ exists locations,
                                    face_locations image = Ok locations
                                    /\ face_encodings image locations
                                       = Raise msg)))
               \/ (exists image,
                     base64_to_image s = Ok image
                     /\ face_locations image = Ok [] /\ r = Success [])
               \/ (exists image locations encodings,
                     base64_to_image s = Ok image
                     /\ face_locations image = Ok locations
                     /\ face_encodings image locations = Ok encodings
                     /\ r = Success (fst (match_all face_distance encodings sd))))).
Proof.
  unfold recognize_faces.
  destruct (falsy image_data) eqn:Ef; [left; now split|].
  right. split; [reflexivity|].
  destruct image_data as [s|]; [|discriminate Ef]. exists s.
  split; [reflexivity|].
  destruct (base64_to_image s) as [image|msg] eqn:Ei;
    [|left; exists msg; split; [reflexivity | now left]].
  destruct (face_locations image) as [[|l ls]|msg] eqn:El.
  - right. left. now exists image.
  - destruct (face_encodings image (l :: ls)) as [encs|msg] eqn:Ee.
    + right. right. exists image, (l :: ls), encs.
      repeat split; try assumption.
      unfold bind. now rewrite match_all_run.
    + left. exists msg. split; [reflexivity|]. right. exists image.
      split; [reflexivity|]. right. now exists (l :: ls).
  - left. exists msg. split; [reflexivity|]. right. exists image.
    split; [reflexivity|]. now left.
Qed.

(** X16.  Every face reported by [recognize_faces] carries the id and the
    name of a stored student and a score above [0.4]. *)
Theorem recognize_faces_sound :
  forall (image_data : option string) (sd : Store)
         (faces : list match_result),
    fst (recognize_faces Image Box base64_to_image face_locations
           face_encodings face_distance image_data sd) = Success faces ->
    Forall
      (fun m =>
         4 # 10 < similarity m
         /\ exists k st,
              In (k, st) (Dict.items sd)
              /\ studentId m = k /\ studentName m = name st)
      faces.
Proof.
  intros image_data sd faces Hr.
  destruct (recognize_faces_cases image_data sd)
    as [[_ H]|(_ & s & _ & [(msg & H & _)|[(image & _ & _ & H)|
               (image & locs & encs & _ & _ & _ & H)]])];
    simpl in H; rewrite Hr in H; try discriminate.
  - injection H as ->. constructor.
  - injection H as ->. rewrite match_all_run. simpl.
    apply Forall_forall. intros m Hm.
    apply in_flat_map in Hm as (p & _ & Hm).
    destruct (fst (find_best_match face_distance p default_threshold sd))
      as [m'|] eqn:E; [|destruct Hm].
    destruct Hm as [<-|[]].
    destruct (find_best_match_least p default_threshold sd m' E)
      as (c & Hc & -> & Ht & _).
    split.
    + unfold dist, default_threshold in Ht. simpl. lra.
    + apply candidates_in in Hc as [Hentry _].
      exists (fst (fst c)), (snd (fst c)).
      split; [now destruct (fst c) | split; reflexivity].
Qed.

(** X17.  [recognize_faces] answers 400 exactly when the image data is
    missing or empty, and 500 with the text of the error when decoding,
    face detection or encoding raises; in every case the store is left as
    it was. *)
Theorem recognize_faces_failures :
  forall (image_data : option string) (sd : Store),
    snd (recognize_faces Image Box base64_to_image face_locations
           face_encodings face_distance image_data sd) = sd
    /\ (falsy image_data = true <->
        exists msg,
          fst (recognize_faces Image Box base64_to_image face_locations
                 face_encodings face_distance image_data sd)
          = Failure 400%nat msg)
    /\ (forall status msg,
          fst (recognize_faces Image Box base64_to_image face_locations
                 face_encodings face_distance image_data sd)
          = Failure status msg ->
          (status = 400%nat /\ msg = "No image provided"%string)
          \/ (status = 500%nat
              /\ exists s,
                   image_data = Some s
                   /\ (base64_to_image s = Raise msg
                       \/ exists image,
                            base64_to_image s = Ok image
                            /\ (face_locations image = Raise msg
                                \/ exists locations,
                                     face_locations image = Ok locations
                                     /\ face_encodings image locations
                                        = Raise msg)))).
Proof.
  intros image_data sd. split; [apply recognize_faces_store|].
  destruct (recognize_faces_cases image_data sd)
    as [[Hf H]|(Hf & s & Hs & [(msg & H & Hcause)|[(image & _ & _ & H)|
               (image & locs & encs & _ & _ & _ & H)]])];
    simpl in H; rewrite H, Hf; split.
  - split; [intros _; eexists; reflexivity | reflexivity].
  - intros status msg [= <- <-]. now left.
  - split; [discriminate | intros [m [= ]]].
  - intros status msg' [= <- <-]. right. split; [reflexivity|]. now exists s.
  - split; [discriminate | intros [m Hm]; discriminate Hm].
  - intros status msg Hm. discriminate Hm.
  - split; [discriminate | intros [m Hm]; discriminate Hm].
  - intros status msg Hm. discriminate Hm.
Qed.

End Nearest.

(** ** The attendance log *)

Module AttendanceFacts.

Import Attendance.

Local Open Scope string_scope.

Lemma length_append (s t : string) :
  String.length (s ++ t) = (String.length s + String.length t)%nat.
Proof. induction s as [|a s IH]; simpl; [reflexivity | now rewrite IH]. Qed.

Lemma append_cancel (s t u : string) : s ++ t = s ++ u -> t = u.
Proof.
  induction s as [|a s IH]; simpl; [trivial|]. intros [= H]. now apply IH.
Qed.

Lemma prefix_of_append (s t : string) : String.prefix s (s ++ t) = true.
Proof.
  induction s as [|a s IH]; simpl; [now destruct t|].
  destruct (ascii_dec a a) as [_|Hne]; [exact IH | now elim Hne].
Qed.

Lemma length_substring (m : nat) (s : string) :
  String.length (substring 0 m s) = Nat.min m (String.length s).
Proof.
  revert s. induction m as [|m IH]; intros s; [now destruct s|].
  destruct s as [|a s]; simpl; [reflexivity | now rewrite IH].
Qed.

Section Log.

Variable Json : Type.

Let save := save_attendance Json.
Let records := get_attendance_records Json.

Lemma save_attendance_log (env : environment) (course_name : option string)
    (present : list Json) (log : Log Json) :
  snd (save env course_name present log)
  = (log ++ record_of Json (env, course_name, present))%list.
Proof.
  unfold save, save_attendance, record_of.
  destruct course_name as [c|]; simpl; [|now rewrite app_nil_r].
  destruct (String.eqb c EmptyString); simpl;
    [now rewrite app_nil_r | reflexivity].
Qed.

(** X18.  After a sequence of [save-attendance] requests the log is the
    old log followed, in request order, by one record for each request
    that names a course; the requests without a course add nothing, no
    earlier record is changed or removed, and
    [get_attendance_records] returns that log. *)
Theorem save_all_log :
  forall (requests : list (save_request Json)) (log : Log Json),
    save_all Json requests log
    = (log ++ flat_map (record_of Json) requests)%list
    /\ fst (records (save_all Json requests log))
       = (log ++ flat_map (record_of Json) requests)%list
    /\ (List.length log <= List.length (save_all Json requests log)
        <= List.length log + List.length requests)%nat.
Proof.
  intros requests log.
  assert (H : save_all Json requests log
              = (log ++ flat_map (record_of Json) requests)%list).
  { unfold save_all. revert log.
    induction requests as [|[[env c] present] requests IH]; intros log; simpl.
    - now rewrite app_nil_r.
    - fold save. rewrite save_attendance_log, IH. now rewrite <- app_assoc. }
  split; [exact H|]. split; [exact H|].
  rewrite H, length_app.
  assert (Hlen : (List.length (flat_map (record_of Json) requests)
                  <= List.length requests)%nat).
  { clear H. induction requests as [|r requests IH]; [constructor|].
    change (flat_map (record_of Json) (r :: requests))
      with (record_of Json r ++ flat_map (record_of Json) requests)%list.
    rewrite length_app.
    assert (Hr : (List.length (record_of Json r) <= 1)%nat).
    { destruct r as [[env [c|]] present]; simpl;
        [destruct (String.eqb c EmptyString); simpl|]; lia. }
    simpl List.length. lia. }
  lia.
Qed.

(** X19.  [save_attendance] refuses a missing or empty course with a 400
    and leaves the log alone; otherwise it answers success and the log
    grows by one record, which holds the course, the date and the
    students list as given. *)
Theorem save_attendance_outcome :
  forall (env : environment) (course_name : option string)
         (present : list Json) (log : Log Json),
    (falsy course_name = true ->
     save env course_name present log
     = (Failure 400%nat "Course name is required", log))
    /\ (falsy course_name = false ->
        exists c r,
          course_name = Some c
          /\ save env course_name present log = (Success tt, (log ++ [r])%list)
          /\ course Json r = c /\ date Json r = today env
          /\ students Json r = present
          /\ record_id Json r = attendance_id env c).
Proof.
  intros env course_name present log. unfold save, save_attendance.
  destruct (falsy course_name) eqn:E; split; try discriminate.
  - reflexivity.
  - intros _. destruct course_name as [c|]; [|discriminate E].
    exists c, (mkRecord Json (attendance_id env c) c (today env) present).
    repeat split.
Qed.

End Log.

(** X20.  A record id starts with the course name and an underscore and
    ends with at most eight characters of the uuid; two ids made for the
    same course at the same time stamp are equal only if the first eight
    characters of their uuids are. *)
Theorem attendance_id_shape :
  forall (env env' : environment) (c : string),
    String.prefix (c ++ "_") (attendance_id env c) = true
    /\ String.length (attendance_id env c)
       = (String.length c + String.length (stamp env) + 2
          + Nat.min 8 (String.length (uuid_hex env)))%nat
    /\ (stamp env = stamp env' ->
        attendance_id env c = attendance_id env' c ->
        substring 0 8 (uuid_hex env) = substring 0 8 (uuid_hex env')).
Proof.
  intros env env' c. unfold attendance_id. split; [|split].
  - change (c ++ "_" ++ stamp env ++ "_" ++ substring 0 8 (uuid_hex env))
      with (c ++ String "_"%char (stamp env ++ "_" ++ substring 0 8 (uuid_hex env))).
    induction c as [|a c IH]; simpl.
    + destruct (ascii_dec "_"%char "_"%char) as [_|Hne]; [|now elim Hne].
      now destruct (stamp env ++ _).
    + destruct (ascii_dec a a) as [_|Hne]; [exact IH | now elim Hne].
  - rewrite !length_append, length_substring. simpl. lia.
  - intros Hstamp Hid. rewrite Hstamp in Hid.
    apply append_cancel in Hid. simpl in Hid. injection Hid as Hid.
    apply append_cancel in Hid. simpl in Hid. now injection Hid.
Qed.

End AttendanceFacts.

(** ** The further theorems at work on the sample store *)

Module ExtraRuns.

Import Sample.
Import Fixtures.

Local Open Scope string_scope.

Ltac compute_done := vm_compute; first [reflexivity | discriminate].

Ltac no_member :=
  let H := fresh "H" in
  intros H; repeat (destruct H as [H|H]; [discriminate H|]); destruct H.

Example data_url_enrolment :
  register_student Image Box decode face_locations face_encodings
                   enroll_url Dict.empty
  = (Success tt, [("s4", mkStudent "s4" "Dan" [[1 # 2]])]).
Proof. reflexivity. Qed.

Lemma strip_data_url_body_witness :
  Decode.strip_data_url "data:image/png;base64,fA,rest" = Ok "fA".
Proof.
  apply (DecodeFacts.strip_data_url_body "data:image/png;base64" "fA" ",rest").
  - reflexivity.
  - no_member.
  - no_member.
  - right. now exists "rest".
Defined.

Lemma strip_data_url_payload_witness :
  ~ In ","%char (list_ascii_of_string "fA")
  /\ exists header tail,
       "data:image/png;base64,fA,rest" = header ++ String ","%char ("fA" ++ tail)
       /\ ~ In ","%char (list_ascii_of_string header)
       /\ (tail = EmptyString \/ exists rest, tail = String ","%char rest).
Proof.
  exact (DecodeFacts.strip_data_url_payload
           "data:image/png;base64,fA,rest" "fA" eq_refl).
Defined.

Lemma data_url_without_comma_witness :
  decode "data:image/png;base64" = Raise "list index out of range"
  /\ extract_descriptor Image Box decode face_locations face_encodings
                        "data:image/png;base64" = None
  /\ recognize_faces Image Box decode face_locations face_encodings
                     abs_distance (Some "data:image/png;base64") two_students
     = (Failure 500%nat "list index out of range", two_students).
Proof.
  apply (DecodeFacts.data_url_without_comma
           Image Box base64_to_image face_locations face_encodings
           abs_distance "data:image/png;base64" two_students).
  - reflexivity.
  - no_member.
Defined.

Lemma extract_descriptor_one_face_witness :
  exists image location encodings,
    base64_to_image "fA" = Ok image
    /\ face_locations image = Ok [location]
    /\ face_encodings image [location] = Ok ([0] :: encodings).
Proof.
  apply (proj1 (extract_descriptor_one_face
                  Image Box base64_to_image face_locations face_encodings
                  "fA" [0])).
  reflexivity.
Defined.

Lemma extract_descriptors_skips_witness :
  extract_descriptors Image Box base64_to_image face_locations face_encodings
                      ["fA"; "zz"; "fB"]
  = extract_descriptors Image Box base64_to_image face_locations
                        face_encodings ["fA"; "fB"].
Proof.
  apply (extract_descriptors_skips
           Image Box base64_to_image face_locations face_encodings
           ["fA"] ["fB"] "zz").
  left. now exists "cannot identify image file".
Defined.

Lemma register_student_outcome_witness :
  fst (register_student Image Box base64_to_image face_locations
                        face_encodings reenroll_s1 two_students) = Success tt
  /\ register_student Image Box base64_to_image face_locations face_encodings
                      (mkRegister None (Some "Eve") ["fA"]) two_students
     = (Failure 400%nat "Missing required data", two_students).
Proof.
  split.
  - apply (proj1 (register_student_outcome
                    Image Box base64_to_image face_locations face_encodings
                    reenroll_s1 two_students)).
    split; [reflexivity|]. split; [reflexivity | discriminate].
  - apply (proj1 (proj2 (register_student_outcome
                           Image Box base64_to_image face_locations
                           face_encodings
                           (mkRegister None (Some "Eve") ["fA"])
                           two_students))).
    left. reflexivity.
Defined.

Lemma register_student_listed_witness :
  exists sid nm,
    req_id enroll_s3 = Some sid /\ req_name enroll_s3 = Some nm
    /\ In (sid, nm)
          (fst (get_students (snd (exec_op (Enroll enroll_s3) two_students)))).
Proof.
  destruct (register_student_listed
              Image Box base64_to_image face_locations face_encodings
              enroll_s3 two_students
              (snd (exec_op (Enroll enroll_s3) two_students)) eq_refl)
    as (sid & nm & H1 & H2 & H3 & _).
  now exists sid, nm.
Defined.

Lemma register_student_commutes_witness :
  Dict.get "s3"
    (snd (register_student Image Box base64_to_image face_locations
            face_encodings enroll_s3
            (snd (register_student Image Box base64_to_image face_locations
                    face_encodings reenroll_s1 two_students))))
  = Dict.get "s3"
      (snd (register_student Image Box base64_to_image face_locations
              face_encodings reenroll_s1
              (snd (register_student Image Box base64_to_image face_locations
                      face_encodings enroll_s3 two_students)))).
Proof.
  apply (register_student_commutes
           Image Box base64_to_image face_locations face_encodings
           reenroll_s1 enroll_s3 two_students "s3").
  discriminate.
Defined.

Lemma find_best_match_none_iff_witness :
  fst (lookup [2] 3 two_students) = None.
Proof.
  apply (proj2 (find_best_match_none_iff abs_distance [2] 3 two_students)).
  repeat constructor; intros [H _]; vm_compute in H; discriminate H.
Defined.

Lemma find_best_match_nearest_witness :
  1 - distance_to abs_distance [1 # 2] bob <= 1 # 2.
Proof.
  apply (find_best_match_nearest
           abs_distance [1 # 2] (6 # 10) two_students
           (mkMatch "s1" "Alice" (1 # 2)) eq_refl bob).
  right. now left.
Defined.

Lemma find_best_match_threshold_free_witness :
  fst (lookup [1 # 2] 3 two_students) = Some (mkMatch "s1" "Alice" (1 # 2)).
Proof.
  apply (proj1 (find_best_match_threshold_free
                  abs_distance [1 # 2] two_students (6 # 10) 3
                  (mkMatch "s1" "Alice" (1 # 2)) eq_refl)).
  compute_done.
Defined.

Lemma register_then_match_witness :
  exists m,
    fst (lookup [5] (6 # 10)
                (snd (exec_op (Enroll reenroll_s1) two_students))) = Some m
    /\ similarity m == 1.
Proof.
  apply (register_then_match
           Image Box base64_to_image face_locations face_encodings
           abs_distance reenroll_s1 two_students
           (snd (exec_op (Enroll reenroll_s1) two_students))
           [5] (6 # 10)).
  - reflexivity.
  - now left.
  - compute_done.
  - repeat constructor; compute_done.
  - compute_done.
Defined.

Lemma recognize_faces_sound_witness :
  Forall
    (fun m =>
       4 # 10 < similarity m
       /\ exists k st,
            In (k, st) (Dict.items two_students)
            /\ studentId m = k /\ studentName m = name st)
    [mkMatch "s1" "Alice" 1; mkMatch "s2" "Bob" 1].
Proof.
  apply (recognize_faces_sound
           Image Box base64_to_image face_locations face_encodings
           abs_distance (Some "ff") two_students).
  reflexivity.
Defined.

Lemma recognize_faces_failures_witness :
  exists msg,
    fst (recognize_faces Image Box base64_to_image face_locations
           face_encodings abs_distance (Some EmptyString) two_students)
    = Failure 400%nat msg.
Proof.
  apply (proj1 (proj1 (proj2 (recognize_faces_failures
                                Image Box base64_to_image face_locations
                                face_encodings abs_distance
                                (Some EmptyString) two_students)))).
  reflexivity.
Defined.

Example two_saves :
  Attendance.save_all string
    [(morning, Some "math", ["s1"; "s2"]); (morning, None, ["s1"]);
     (morning_too, Some "art", [])] []
  = [Attendance.mkRecord string "math_20261104_093000_01234567" "math"
                         "2026-11-04" ["s1"; "s2"];
     Attendance.mkRecord string "art_20261104_093000_01234567" "art"
                         "2026-11-04" []].
Proof. reflexivity. Qed.

Lemma save_attendance_outcome_witness :
  Attendance.save_attendance string morning (Some EmptyString) ["s1"] []
  = (Failure 400%nat "Course name is required", []).
Proof.
  apply (proj1 (AttendanceFacts.save_attendance_outcome
                  string morning (Some EmptyString) ["s1"] [])).
  reflexivity.
Defined.

Lemma attendance_id_shape_witness :
  substring 0 8 (Attendance.uuid_hex morning)
  = substring 0 8 (Attendance.uuid_hex morning_too).
Proof.
  apply (proj2 (proj2 (AttendanceFacts.attendance_id_shape
                         morning morning_too "math"))).
  - reflexivity.
  - reflexivity.
Defined.

End ExtraRuns.
